(** * read-cat plugin host: src/core/plugins/index.ts

    A shallow embedding of the [Plugins] class: the schema validator
    ([_isPlugin], [_isBookSource], [_isBookStore]), the static code check
    ([check]), the proxy handler of [runScript], the registry operations
    ([import], [enable], [disable], [delete], [getPluginsByType]), the
    store cache ([getPluginStore]), the request capability and the bulk
    loader ([importPool]).

    A JavaScript string is the sequence of its UTF-16 code units;
    [length] counts code units, as [String.prototype.length] does. Thrown
    values are the message strings the source throws. *)

From Stdlib Require Import ZArith NArith Ascii String.
From stdpp Require Import base option list gmap strings pretty.

Local Open Scope string_scope.
Local Open Scope list_scope.
Local Open Scope nat_scope.

(** ** JavaScript strings *)

(** A string is a list of code units, numbers below 65536. *)
Abbreviation JSString := (list N).

(** A literal of this file, which has ASCII characters only, as a
    JavaScript string. *)
Definition js (s : string) : JSString :=
  N_of_ascii <$> list_ascii_of_string s.

Coercion js : string >-> list.

(** ** JavaScript values as the validator sees them *)

Module JS.

(** A JavaScript number: an integer, or any other number ([NaN], an
    infinity, a fraction). [-0] and [0] are both [Int 0]: [===] and
    [Map.get] do not tell them apart. *)
Inductive Number :=
  | Int (z : Z)
  | NonInt.

(** The value of a property as [typeof] and the [is*] helpers see it.
    A missing property reads as [Undefined]. *)
Inductive Value :=
  | Undefined
  | Null
  | Boolean (b : bool)
  | Num (n : Number)
  | Str (s : JSString)
  | Function
  | Object.

(** Modelled from the spec: the predicate helpers of [../is] are not
    among the sources ("is-null/undefined/string/number/array/date/
    function"); [isUndefined] is the comparison with [undefined]. *)
Definition isUndefined (v : Value) : bool :=
  match v with Undefined => true | _ => false end.

(** Modelled from the spec: [isNull] of [../is], the comparison with
    [null]. *)
Definition isNull (v : Value) : bool :=
  match v with Null => true | _ => false end.

(** Modelled from the spec: [isString] of [../is], [typeof v === 'string']. *)
Definition isString (v : Value) : bool :=
  match v with Str _ => true | _ => false end.

(** Modelled from the spec: [isNumber] of [../is], [typeof v === 'number']. *)
Definition isNumber (v : Value) : bool :=
  match v with Num _ => true | _ => false end.

(** Modelled from the spec: [isFunction] of [../is],
    [typeof v === 'function']. *)
Definition isFunction (v : Value) : bool :=
  match v with Function => true | _ => false end.

(** [a === b] on numbers; [NaN] is never equal, and two other non-integers
    are not compared by anything below, so [NonInt] is equal to nothing. *)
Definition number_eqb (a b : Number) : bool :=
  match a, b with
  | Int x, Int y => Z.eqb x y
  | _, _ => false
  end.

(** [a === b]; two [Function] or [Object] values here stand for unknown
    references and are never compared by the code modelled. *)
Definition strict_eqb (a b : Value) : bool :=
  match a, b with
  | Undefined, Undefined => true
  | Null, Null => true
  | Boolean x, Boolean y => Bool.eqb x y
  | Num x, Num y => number_eqb x y
  | Str x, Str y => bool_decide (x = y)
  | _, _ => false
  end.

(** *** String operations *)

(** The code units [String.prototype.trim] removes: the white space of
    the language (TAB, VT, FF, SP, NBSP, U+1680, U+2000 to U+200A, U+202F,
    U+205F, U+3000, U+FEFF) and its line terminators (LF, CR, U+2028,
    U+2029). *)
Definition isWhiteSpace (c : N) : bool :=
  ((c =? 9) || (c =? 10) || (c =? 11) || (c =? 12) || (c =? 13)
   || (c =? 32) || (c =? 160) || (c =? 5760)
   || ((8192 <=? c) && (c <=? 8202))
   || (c =? 8232) || (c =? 8233) || (c =? 8239) || (c =? 8287)
   || (c =? 12288) || (c =? 65279))%N.

Fixpoint trimStart (s : JSString) : JSString :=
  match s with
  | c :: r => if isWhiteSpace c then trimStart r else s
  | [] => []
  end.

(** [trimEnd]: a code unit is dropped when it is white space and
    everything after it has been dropped. *)
Fixpoint trimEnd (s : JSString) : JSString :=
  match s with
  | c :: r =>
      match trimEnd r with
      | [] => if isWhiteSpace c then [] else [c]
      | r' => c :: r'
      end
  | [] => []
  end.

Definition trim (s : JSString) : JSString := trimEnd (trimStart s).

(** A string is truthy when it is not empty. *)
Definition truthy_string (s : JSString) : bool :=
  match s with [] => false | _ => true end.

Definition isUpper (c : N) : bool := ((65 <=? c) && (c <=? 90))%N.
Definition isLower (c : N) : bool := ((97 <=? c) && (c <=? 122))%N.
Definition isDigit (c : N) : bool := ((48 <=? c) && (c <=? 57))%N.

(** The character class [[A-Za-z0-9_\-]]. *)
Definition isIdChar (c : N) : bool :=
  isUpper c || isLower c || isDigit c || (c =? 95)%N || (c =? 45)%N.

(** [/[A-Za-z0-9_\-]/.test(s)]: the pattern has no anchors, so it matches
    as soon as one code unit of [s] is in the class. *)
Definition test_id_class (s : JSString) : bool := existsb isIdChar s.

(** Canonicalisation under the [i] flag, against a pattern of ASCII
    characters: a code unit matches a letter of the pattern when it is
    that letter in either case, and any other character of the pattern
    when it is that character (no code unit above 127 canonicalises to an
    ASCII character). Both sides are compared with their letters [A] to
    [Z] in lower case. *)
Definition toLower (c : N) : N :=
  if isUpper c then (c + 32)%N else c.

Definition eqb_ci (a b : N) : bool := (toLower a =? toLower b)%N.

(** [prefix_ci p s]: [s] starts with the ASCII pattern [p],
    case-insensitively; the rest of [s] is returned. *)
Fixpoint prefix_ci (p s : JSString) : option JSString :=
  match p, s with
  | [], _ => Some s
  | a :: p', b :: s' => if eqb_ci a b then prefix_ci p' s' else None
  | _ :: _, [] => None
  end.

(** [^https?:\/\/] with the [i] flag; the rest of the input is returned. *)
Definition match_scheme (s : JSString) : option JSString :=
  match prefix_ci "http" s with
  | None => None
  | Some r =>
      match prefix_ci "s://" r with
      | Some r' => Some r'
      | None => prefix_ci "://" r
      end
  end.

(** The line terminators, which [.] does not match: LF, CR, U+2028,
    U+2029. *)
Definition isLineTerminator (c : N) : bool :=
  ((c =? 10) || (c =? 13) || (c =? 8232) || (c =? 8233))%N.

(** [.*?\.js$] with the [i] flag on the rest [r] of the input: some suffix
    of [r] is [.js] and no line terminator comes before it. *)
Fixpoint match_dot_js (r : JSString) : bool :=
  match r with
  | [] => false
  | c :: r' =>
      match prefix_ci ".js" r with
      | Some [] => true
      | _ => negb (isLineTerminator c) && match_dot_js r'
      end
  end.

(** [/^https?:\/\/.*?\.js$/i.test(s)] *)
Definition test_plugin_file_url (s : JSString) : bool :=
  match match_scheme s with
  | Some r => match_dot_js r
  | None => false
  end.

(** [/^https?:\/\/.*?/i.test(s)]: the lazy [.*?] matches the empty string. *)
Definition test_base_url (s : JSString) : bool :=
  match match_scheme s with
  | Some _ => true
  | None => false
  end.

(** *** Words for statements about strings *)

(** The string with its letters [A] to [Z] in lower case. *)
Definition lower (s : JSString) : JSString := toLower <$> s.

(** The first code unit is white space. *)
Definition startsWithWhiteSpace (s : JSString) : bool :=
  match head s with
  | Some c => isWhiteSpace c
  | None => false
  end.

(** The last code unit is white space. *)
Definition endsWithWhiteSpace (s : JSString) : bool :=
  match last s with
  | Some c => isWhiteSpace c
  | None => false
  end.

(** Every code unit is white space: the strings [trim] empties. *)
Definition blank (s : JSString) : bool := forallb isWhiteSpace s.

End JS.

(** ** Results of fallible code

    A [throw] of a message string is [Err] of that message. *)

Inductive Result (A : Type) :=
  | Ok (a : A)
  | Err (msg : JSString).
Arguments Ok {A} a.
Arguments Err {A} msg.

Definition isOk {A} (r : Result A) : bool :=
  match r with Ok _ => true | Err _ => false end.

Definition rbind {A B} (r : Result A) (k : A -> Result B) : Result B :=
  match r with
  | Ok a => k a
  | Err m => Err m
  end.

(** [throwIf c msg]: [if (c) throw msg]. *)
Definition throwIf (c : bool) (msg : JSString) : Result unit :=
  if c then Err msg else Ok tt.

Notation "r ;;; k" := (rbind r (fun _ => k))
  (at level 100, right associativity).

(** ** The plugin contract and the schema validator *)

Module Schema.
Import JS.

(** [enum PluginType { BOOK_SOURCE, BOOK_STORE }] *)
Inductive PluginType := BOOK_SOURCE | BOOK_STORE.

Definition PluginType_code (t : PluginType) : Z :=
  match t with BOOK_SOURCE => 0 | BOOK_STORE => 1 end.

(** [PluginType.valueOf]: the map built from the enum's numeric members. *)
Definition valueOf (n : Number) : option PluginType :=
  match n with
  | Int 0 => Some BOOK_SOURCE
  | Int 1 => Some BOOK_STORE
  | _ => None
  end.

(** [plugin.prototype] viewed as a [BookSource]. *)
Record Prototype := {
  search : Value;
  getDetail : Value;
  getTextContent : Value
}.

(** The static properties of an exported value ([PluginBaseProps]); the
    registry copies them as they are. *)
Record PluginBaseProps := {
  ID : Value;
  TYPE : Value;
  GROUP : Value;
  NAME : Value;
  VERSION : Value;
  VERSION_CODE : Value;
  PLUGIN_FILE_URL : Value;
  BASE_URL : Value
}.

(** An exported value ([PluginInterface]): its static properties, its
    [prototype] ([None] when the export has none, so that reading a member
    of it is a [TypeError]) and what [new] does: [Some msg] when the
    constructor throws [msg].

    The static members are data properties here: every read of
    [plugin.ID], [plugin.TYPE], ... gives the same value. A class that
    declares one of them as an accessor ([static get ID()]) can answer
    differently from one read to the next and is not covered. *)
Record PluginInterface := {
  statics : PluginBaseProps;
  prototype : option Prototype;
  constructor_throws : option JSString
}.

Definition method_check (name : JSString) (v : Value) : Result unit :=
  throwIf (isUndefined v) ("Function [" ++ name ++ "] not found") ;;;
  throwIf (negb (isFunction v))
    ("Property [" ++ name ++ "] is not of function type").

Definition _isBookSource (plugin : PluginInterface) : Result unit :=
  match prototype plugin with
  | None => Err "Cannot read properties of undefined (reading 'search')"
  | Some p =>
      method_check "search" (search p) ;;;
      method_check "getDetail" (getDetail p) ;;;
      method_check "getTextContent" (getTextContent p)
  end.

Definition _isBookStore (plugin : PluginInterface) : Result unit :=
  Err "unknown".

Definition check_ID (v : Value) : Result unit :=
  throwIf (isUndefined v) "Static property [ID] not found" ;;;
  match v with
  | Str s =>
      throwIf (negb (test_id_class s) || negb (bool_decide (trim s = s)))
        "The ID format is not standard" ;;;
      throwIf ((length s <? 16) || (32 <? length s))
        ("Static property [ID] Length:" ++ pretty (length s)
           ++ ", ID range in length [16,32]")
  | _ => Err "Static property [ID] is not of string type"
  end.

Definition check_TYPE (v : Value) : Result unit :=
  throwIf (isUndefined v) "Static property [TYPE] not found" ;;;
  match v with
  | Num n =>
      throwIf (bool_decide (valueOf n = None))
        "Static property [TYPE] is unknown plugin type"
  | _ => Err "Static property [TYPE] is not of number type"
  end.

(** [GROUP], [NAME] and [VERSION] share one shape: presence, type, trim,
    length in [lo, hi]; the range printed in the message is the source's
    text, [shown]. *)
Definition check_text (field shown : JSString) (lo hi : nat) (v : Value)
  : Result unit :=
  throwIf (isUndefined v) ("Static property [" ++ field ++ "] not found") ;;;
  match v with
  | Str s =>
      throwIf (negb (bool_decide (trim s = s)))
        ("The " ++ field ++ " format is not standard") ;;;
      throwIf ((length s <? lo) || (hi <? length s))
        ("Static property [" ++ field ++ "] Length:"
           ++ pretty (length s) ++ ", " ++ field
           ++ " range in length " ++ shown)
  | _ => Err ("Static property [" ++ field ++ "] is not of string type")
  end.

Definition check_VERSION_CODE (v : Value) : Result unit :=
  throwIf (isUndefined v) "Static property [VERSION_CODE] not found" ;;;
  throwIf (negb (isNumber v))
    "Static property [VERSION_CODE] is not of number type".

Definition check_PLUGIN_FILE_URL (v : Value) : Result unit :=
  throwIf (isUndefined v) "Static property [PLUGIN_FILE_URL] not found" ;;;
  match v with
  | Str s =>
      throwIf (truthy_string (trim s) && negb (test_plugin_file_url s))
        "The [PLUGIN_FILE_URL] format is not standard"
  | _ => Err "Static property [PLUGIN_FILE_URL] is not of string type"
  end.

Definition check_BASE_URL (v : Value) : Result unit :=
  throwIf (isUndefined v) "Static property [BASE_URL] not found" ;;;
  match v with
  | Str s =>
      throwIf (negb (truthy_string (trim s)))
        "Static property [BASE_URL] is empty" ;;;
      throwIf (negb (test_base_url s))
        "The [BASE_URL] format is not standard"
  | _ => Err "Static property [BASE_URL] is not of string type"
  end.

(** The static fields, in the order of the source. *)
Definition check_statics (p : PluginBaseProps) : Result unit :=
  check_ID (ID p) ;;;
  check_TYPE (TYPE p) ;;;
  check_text "GROUP" "[2,15]" 1 15 (GROUP p) ;;;
  check_text "NAME" "[2,15]" 1 15 (NAME p) ;;;
  check_text "VERSION" "[1,8]" 0 8 (VERSION p) ;;;
  check_VERSION_CODE (VERSION_CODE p) ;;;
  check_PLUGIN_FILE_URL (PLUGIN_FILE_URL p) ;;;
  check_BASE_URL (BASE_URL p).

(** [switch (plugin.TYPE)]: [case BOOK_STORE] goes to [_isBookStore],
    [case BOOK_SOURCE] and [default] to [_isBookSource]. *)
Definition dispatch_TYPE (plugin : PluginInterface) : Result unit :=
  if strict_eqb (TYPE (statics plugin)) (Num (Int (PluginType_code BOOK_STORE)))
  then _isBookStore plugin
  else _isBookSource plugin.

Definition _isPlugin (plugin : PluginInterface) : Result unit :=
  check_statics (statics plugin) ;;;
  dispatch_TYPE plugin.

Definition isPlugin (plugin : PluginInterface) : bool :=
  isOk (_isPlugin plugin).

End Schema.

(** ** The proxy handler of [runScript]

    Objects live in a heap. A script holds primitive values and
    references; a reference is an object of the heap or a [Proxy] built by
    the handler over one. Accessor properties and property attributes are
    not modelled: every property is a writable, configurable data
    property. *)

Module Sandbox.

Definition loc := nat.

(** A property key is a string or a symbol; a symbol has an identity and
    a description. *)
Inductive PropertyKey :=
  | KString (s : JSString)
  | KSymbol (id : nat) (description : JSString).

#[global] Instance PropertyKey_eq_dec : EqDecision PropertyKey.
Proof. solve_decision. Defined.

#[global] Instance PropertyKey_countable : Countable PropertyKey.
Proof.
  refine (inj_countable'
    (fun k => match k with
              | KString s => inl s
              | KSymbol i d => inr (i, d)
              end)
    (fun x => match x with
              | inl s => KString s
              | inr (i, d) => KSymbol i d
              end) _).
  by intros [].
Defined.

Definition Symbol_unscopables : PropertyKey := KSymbol 0 "Symbol.unscopables".

(** [String(p)] *)
Definition String_of (p : PropertyKey) : JSString :=
  match p with
  | KString s => s
  | KSymbol _ d => "Symbol(" ++ d ++ ")"
  end.

(** [VRef 0 l] is the object at [l]; [VRef (S n) l] is a
    [new Proxy(VRef n l, handler)]. The handler is the only one there is,
    so a proxy is known by its target. *)
Inductive Value :=
  | VUndefined
  | VNull
  | VBoolean (b : bool)
  | VNumber (z : Z)
  | VString (s : JSString)
  | VRef (wraps : nat) (l : loc).

#[global] Instance Value_eq_dec : EqDecision Value.
Proof. solve_decision. Defined.

Record Obj := {
  callable : bool;
  own : gmap PropertyKey Value;
  proto : option loc
}.

Abbreviation Heap := (gmap loc Obj).

Inductive Thrown :=
  | Message (s : JSString)      (* [throw `...`] of the source *)
  | TypeError (s : JSString).   (* raised by the engine *)

Inductive Completion (A : Type) :=
  | Normal (a : A)
  | Throw (e : Thrown).
Arguments Normal {A} a.
Arguments Throw {A} e.

Inductive Typeof :=
  | t_undefined | t_object | t_boolean | t_number | t_string | t_function.

#[global] Instance Typeof_eq_dec : EqDecision Typeof.
Proof. solve_decision. Defined.

(** What the handler closes over: the ambient global object, the
    [sandbox] object literal, and the prototypes a member read on a
    primitive is looked up in. *)
Record Realm := {
  window : loc;
  sandbox : loc;
  String_prototype : loc;
  Number_prototype : loc;
  Boolean_prototype : loc
}.

Section Handler.
Context (R : Realm).

Definition is_callable (h : Heap) (l : loc) : bool :=
  match h !! l with
  | Some o => callable o
  | None => false
  end.

(** [typeof v]; a proxy has the [typeof] of its target. *)
Definition typeof (h : Heap) (v : Value) : Typeof :=
  match v with
  | VUndefined => t_undefined
  | VNull => t_object
  | VBoolean _ => t_boolean
  | VNumber _ => t_number
  | VString _ => t_string
  | VRef _ l => if is_callable h l then t_function else t_object
  end.

(** The property [p] of the ordinary object [l], own or inherited: the
    walk of [[HasProperty]] and [[Get]] along the prototype chain. *)
Fixpoint lookup_chain (fuel : nat) (h : Heap) (l : loc) (p : PropertyKey)
  : option Value :=
  match fuel with
  | O => None
  | S fuel' =>
      match h !! l with
      | None => None
      | Some o =>
          match own o !! p with
          | Some v => Some v
          | None =>
              match proto o with
              | Some l' => lookup_chain fuel' h l' p
              | None => None
              end
          end
      end
  end.

(** The own property [p] of the object [l], if it has one. *)
Definition own_property (h : Heap) (l : loc) (p : PropertyKey) : option Value :=
  h !! l ≫= fun o => own o !! p.

(** A prototype chain has no cycle, so it is no longer than the heap. *)
Definition find_property (h : Heap) (l : loc) (p : PropertyKey) : option Value :=
  lookup_chain (size h) h l p.

(** [p in o] on an ordinary object *)
Definition ordinary_has (h : Heap) (l : loc) (p : PropertyKey) : bool :=
  bool_decide (is_Some (find_property h l p)).

(** [o[p]] on an ordinary object *)
Definition ordinary_get (h : Heap) (l : loc) (p : PropertyKey) : Value :=
  default VUndefined (find_property h l p).

(** [a === window]: only the object itself is identical to it, no proxy
    over it is. *)
Definition is_window (v : Value) : bool :=
  bool_decide (v = VRef 0 (window R)).

Definition denied_access (p : PropertyKey) : Thrown :=
  Message ("Permission denied to access property or function ["
             ++ String_of p ++ "]").

Definition denied_set (p : PropertyKey) : Thrown :=
  Message ("Permission denied to set property or function ["
             ++ String_of p ++ "]").

(** [new Proxy(val, handler)] *)
Definition new_Proxy (val : Value) : Completion Value :=
  match val with
  | VRef n l => Normal (VRef (S n) l)
  | _ => Throw (TypeError "Cannot create proxy with a non-object as target or handler")
  end.

(** The part of the [get] trap after [Reflect.get]. *)
Definition get_found (h : Heap) (p : PropertyKey) (val : Value)
  : Completion Value :=
  if negb (is_window val) then
    if bool_decide (typeof h val = t_object) then new_Proxy val
    else Normal val
  else Throw (denied_access p).

(** [handler.get(target, p, receiver)] with [target = VRef n l]. When the
    target is itself a proxy, [p in target] runs its [has] trap, which
    answers [true], and [Reflect.get] runs its [get] trap. *)
Fixpoint get (h : Heap) (n : nat) (l : loc) (p : PropertyKey)
  : Completion Value :=
  if bool_decide (p = Symbol_unscopables) then Normal VUndefined
  else
    match n with
    | O =>
        if ordinary_has h l p
        then get_found h p (ordinary_get h l p)
        else Throw (denied_access p)
    | S m =>
        match get h m l p with
        | Normal val => get_found h p val
        | Throw e => Throw e
        end
    end.

(** [target === sandbox.plugin] *)
Definition is_sandbox_plugin (h : Heap) (target : Value) : bool :=
  match target, ordinary_get h (sandbox R) (KString "plugin") with
  | VRef 0 l, VRef 0 l' => bool_decide (l = l')
  | _, _ => false
  end.

(** [Reflect.set(target, p, v)] on an ordinary object with a writable or
    absent own data property. *)
Definition Reflect_set (h : Heap) (l : loc) (p : PropertyKey) (v : Value) : Heap :=
  alter (fun o => {| callable := callable o;
                     own := <[p := v]> (own o);
                     proto := proto o |}) l h.

(** [handler.set(target, p, value)] with [target = VRef n l]; the source
    names the third parameter [receiver], its value is the value written. *)
Definition set (h : Heap) (n : nat) (l : loc) (p : PropertyKey) (v : Value)
  : Completion Heap :=
  if is_sandbox_plugin h (VRef n l) && bool_decide (p = KString "exports")
  then Normal (Reflect_set h l p v)
  else Throw (denied_set p).

(** *** What a script does with these *)

(** A bare identifier [x] inside [with (proxy)]: the [has] trap answers
    [true] for every name, so the name is always looked up through the
    [get] trap of the proxy over [sandbox]. *)
Definition read_identifier (h : Heap) (x : JSString) : Completion Value :=
  get h 0 (sandbox R) (KString x).

(** [x = v] on a bare identifier inside [with (proxy)] *)
Definition write_identifier (h : Heap) (x : JSString) (v : Value) : Completion Heap :=
  set h 0 (sandbox R) (KString x) v.

(** [v[p]]: through the [get] trap when [v] is a proxy, an ordinary read
    otherwise. *)
Definition read_member (h : Heap) (v : Value) (p : PropertyKey) : Completion Value :=
  match v with
  | VRef 0 l => Normal (ordinary_get h l p)
  | VRef (S n) l => get h n l p
  | VString _ => Normal (ordinary_get h (String_prototype R) p)
  | VNumber _ => Normal (ordinary_get h (Number_prototype R) p)
  | VBoolean _ => Normal (ordinary_get h (Boolean_prototype R) p)
  | VUndefined | VNull => Throw (TypeError "Cannot read properties of undefined or null")
  end.

(** [v[p] = x]: through the [set] trap when [v] is a proxy, an ordinary
    write on an object, a silently dropped write on a primitive. *)
Definition write_member (h : Heap) (v : Value) (p : PropertyKey) (x : Value)
  : Completion Heap :=
  match v with
  | VRef 0 l => Normal (Reflect_set h l p x)
  | VRef (S n) l => set h n l p x
  | VString _ | VNumber _ | VBoolean _ => Normal h
  | VUndefined | VNull => Throw (TypeError "Cannot set properties of undefined or null")
  end.

(** [sandbox.plugin.exports], read by the function [runScript] returns. *)
Definition exports (h : Heap) : Value :=
  match ordinary_get h (sandbox R) (KString "plugin") with
  | VRef 0 l => ordinary_get h l (KString "exports")
  | _ => VUndefined
  end.

End Handler.

(** *** The heap [runScript] starts from

    The [sandbox] object literal of the source with the objects it names,
    and of the ambient built-ins their prototype chains, their
    [constructor] links, the methods of [Object.prototype] and of
    [Function.prototype] that have a string for a name, and
    [String.prototype.trim]. The accessor [__proto__] of
    [Object.prototype] is left out. *)

Definition props (l : list (string * Value)) : gmap PropertyKey Value :=
  list_to_map (prod_map (fun s => KString (js s)) id <$> l).

Definition l_window : loc := 1.
Definition l_Object_prototype : loc := 2.
Definition l_Function_prototype : loc := 3.
Definition l_Object : loc := 4.
Definition l_Function : loc := 5.
Definition l_sandbox : loc := 6.
Definition l_plugin : loc := 7.
Definition l_PluginType : loc := 8.
Definition l_console : loc := 10.
Definition l_String : loc := 16.
Definition l_String_prototype : loc := 17.
Definition l_Number : loc := 18.
Definition l_Number_prototype : loc := 19.
Definition l_Boolean : loc := 20.
Definition l_Boolean_prototype : loc := 21.
Definition l_Date : loc := 22.
Definition l_Math : loc := 24.
Definition l_RegExp : loc := 25.
Definition l_JSON : loc := 27.
Definition l_Promise : loc := 30.
Definition l_Timer : loc := 40.
Definition l_URLSearchParams : loc := 43.
Definition l_hasOwnProperty : loc := 48.
Definition l_trim : loc := 54.

(** An object literal or a built-in object. *)
Definition object (l : list (string * Value)) : Obj :=
  {| callable := false; own := props l; proto := Some l_Object_prototype |}.

(** A function. *)
Definition function (l : list (string * Value)) : Obj :=
  {| callable := true; own := props l; proto := Some l_Function_prototype |}.

Definition ref (l : loc) : Value := VRef 0 l.

Definition initial_heap : Heap :=
  list_to_map [
    (l_window, object [("window", ref l_window)]);
    (l_Object_prototype,
       {| callable := false;
          own := props [("constructor", ref l_Object);
                        ("toString", ref 45);
                        ("toLocaleString", ref 46);
                        ("valueOf", ref 47);
                        ("hasOwnProperty", ref l_hasOwnProperty);
                        ("isPrototypeOf", ref 49);
                        ("propertyIsEnumerable", ref 50);
                        ("__defineGetter__", ref 55);
                        ("__defineSetter__", ref 56);
                        ("__lookupGetter__", ref 57);
                        ("__lookupSetter__", ref 58)];
          proto := None |});
    (45, function []); (46, function []); (47, function []);
    (l_hasOwnProperty, function []); (49, function []); (50, function []);
    (55, function []); (56, function []); (57, function []);
    (58, function []);
    (l_Function_prototype, function [
       ("constructor", ref l_Function);
       ("call", ref 51); ("apply", ref 52); ("bind", ref 53);
       ("toString", ref 59)]);
    (51, function []); (52, function []); (53, function []);
    (59, function []);
    (l_Object, function [("prototype", ref l_Object_prototype)]);
    (l_Function, function [("prototype", ref l_Function_prototype)]);
    (l_sandbox, object [
       ("plugin", ref l_plugin);
       ("console", ref l_console);
       ("String", ref l_String);
       ("Number", ref l_Number);
       ("Boolean", ref l_Boolean);
       ("Date", ref l_Date);
       ("Math", ref l_Math);
       ("RegExp", ref l_RegExp);
       ("JSON", ref l_JSON);
       ("Promise", ref l_Promise);
       ("isNaN", ref 32);
       ("isNull", ref 33);
       ("isUndefined", ref 34);
       ("isString", ref 35);
       ("isNumber", ref 36);
       ("isArray", ref 37);
       ("isDate", ref 38);
       ("isFunction", ref 39);
       ("Timer", ref l_Timer);
       ("URLSearchParams", ref l_URLSearchParams)]);
    (l_plugin, object [("exports", VNull); ("type", ref l_PluginType)]);
    (l_PluginType, object [
       ("BOOK_SOURCE", VNumber 0); ("BOOK_STORE", VNumber 1);
       ("0", VString "BOOK_SOURCE"); ("1", VString "BOOK_STORE");
       ("valueOf", ref 9)]);
    (9, function []);
    (l_console, object [
       ("log", ref 11); ("info", ref 12); ("error", ref 13);
       ("warn", ref 14); ("debug", ref 15)]);
    (11, function []); (12, function []); (13, function []);
    (14, function []); (15, function []);
    (l_String, function [("prototype", ref l_String_prototype)]);
    (l_String_prototype, object [
       ("constructor", ref l_String); ("trim", ref l_trim)]);
    (l_trim, function []);
    (l_Number, function [("prototype", ref l_Number_prototype)]);
    (l_Number_prototype, object [("constructor", ref l_Number)]);
    (l_Boolean, function [("prototype", ref l_Boolean_prototype)]);
    (l_Boolean_prototype, object [("constructor", ref l_Boolean)]);
    (l_Date, function [("prototype", ref 23)]);
    (23, object [("constructor", ref l_Date)]);
    (l_Math, object [("PI", VNumber 3)]);
    (l_RegExp, function [("prototype", ref 26)]);
    (26, object [("constructor", ref l_RegExp)]);
    (l_JSON, object [("parse", ref 28); ("stringify", ref 29)]);
    (28, function []); (29, function []);
    (l_Promise, function [("prototype", ref 31)]);
    (31, object [("constructor", ref l_Promise)]);
    (32, function []); (33, function []); (34, function []);
    (35, function []); (36, function []); (37, function []);
    (38, function []); (39, function []);
    (l_Timer, object [("timeout", ref 41); ("interval", ref 42)]);
    (41, function []); (42, function []);
    (l_URLSearchParams, function [("prototype", ref 44)]);
    (44, object [("constructor", ref l_URLSearchParams)])
  ].

Definition realm : Realm :=
  {| window := l_window;
     sandbox := l_sandbox;
     String_prototype := l_String_prototype;
     Number_prototype := l_Number_prototype;
     Boolean_prototype := l_Boolean_prototype |}.

End Sandbox.

(** ** The registry: [import], [check], [enable], [disable], [delete],
       [getPluginsByType], [importPool] *)

Module Registry.
Import JS Schema.

(** [PluginImportOptions]; an absent field is [None]. The fields live in
    a module of their own: [enable] is also a method of the class. *)
Module Options.
Record PluginImportOptions := {
  force : option bool;
  minify : option bool;
  debug : option bool;
  enable : option bool
}.
End Options.
Abbreviation PluginImportOptions := Options.PluginImportOptions.

(** [options?.f] taken as a condition: a missing [options] or a missing
    field is falsy. *)
Definition opt (f : PluginImportOptions -> option bool)
  (options : option PluginImportOptions) : bool :=
  default false (options ≫= f).

(** *** The syntax tree of the embedded parser

    What the visitor of [check] reads of a node: [node.name] when it is a
    string, [node.start.value] when it is a string, [node.start.line]; and
    the nodes the walker descends into. *)
#[local] Unset Elimination Schemes.
Inductive Node :=
  | AST_Node (name : option JSString) (start_value : option JSString)
             (start_line : nat) (children : list Node).

#[local] Set Elimination Schemes.

Definition node_name (n : Node) : option JSString :=
  match n with AST_Node x _ _ _ => x end.
Definition start_value (n : Node) : option JSString :=
  match n with AST_Node _ x _ _ => x end.
Definition start_line (n : Node) : nat :=
  match n with AST_Node _ _ x _ => x end.
Definition children (n : Node) : list Node :=
  match n with AST_Node _ _ _ x => x end.

(** The test of the visitor. *)
Definition is_import (n : Node) : bool :=
  bool_decide (node_name n = Some (js "import"))
  || bool_decide (start_value n = Some (js "import")).

Definition import_error (n : Node) : JSString :=
  "Cannot import modules, in the " ++ pretty (start_line n) ++ " line".

(** [ast.walk(new TreeWalker(visitor))]: the visitor runs on a node, then
    on its descendants, in source order; its first [throw] ends the walk. *)
Fixpoint walk (n : Node) : Result unit :=
  if is_import n then Err (import_error n)
  else
    (fix walk_all (l : list Node) : Result unit :=
       match l with
       | [] => Ok tt
       | c :: r => walk c ;;; walk_all r
       end) (children n).

(** Every node of a tree, in the order of the walk. *)
Fixpoint nodes (n : Node) : list Node :=
  n :: (fix nodes_all (l : list Node) : list Node :=
          match l with
          | [] => []
          | c :: r => nodes c ++ nodes_all r
          end) (children n).

(** *** Collaborators *)

(** A record of [GLOBAL_DB.store.pluginsJSCode], kept under its [id]. *)
Record PluginCode := {
  jscode : JSString;
  code_enable : bool
}.

(** What the class reaches outside itself: the file system, the embedded
    parser and printer, the interpreter that runs a script against the
    sandbox, the database, the settings.
    - [parse]: [UGLIFY_JS.parse], [Err] on a syntax error;
    - [print]: scope resolution, name mangling and [print_to_string];
    - [run]: [runScript(jscode)()], the final value of
      [sandbox.plugin.exports], [None] when it is falsy, [Err] when the
      script throws;
    - [put_rejects]: [Some msg] when [put] of that record rejects with
      [msg]; a rejected [put] writes nothing;
    - [remove_rejects]: [Some msg] when [remove] of that id rejects with
      [msg]; a rejected [remove] removes nothing;
    - [settle]: the order in which the imports started together for one
      chunk of [importPool] come to their callbacks; [Promise.all] leaves
      it to the scheduler. *)
Record Host := {
  files : gmap JSString JSString;
  parse : JSString -> Result Node;
  print : Node -> JSString;
  run : JSString -> Result (option PluginInterface);
  put_rejects : JSString -> PluginCode -> option JSString;
  remove_rejects : JSString -> option JSString;
  threadsNumber : nat;
  settle : list (JSString * PluginCode) -> list (JSString * PluginCode)
}.

(** *** State *)

(** An instance is known by the order of its construction. *)
Abbreviation Instance := nat (only parsing).

Record PoolEntry := {
  entry_enable : bool;
  props : PluginBaseProps;
  instance : option Instance
}.

Record LoadStat := {
  stat_id : JSString;
  stat_error : option JSString
}.

Record State := {
  pluginsPool : gmap JSString PoolEntry;
  pluginsStore : gset JSString;
  pluginsJSCode : gmap JSString PluginCode;
  loadStats : list LoadStat;
  executed : list JSString;     (* the scripts run so far, oldest first *)
  constructed : nat           (* the instances constructed so far *)
}.

Definition initial : State :=
  {| pluginsPool := ∅; pluginsStore := ∅; pluginsJSCode := ∅;
     loadStats := []; executed := []; constructed := 0 |}.

Definition set_pluginsPool (f : gmap JSString PoolEntry -> gmap JSString PoolEntry)
  (s : State) : State :=
  {| pluginsPool := f (pluginsPool s); pluginsStore := pluginsStore s;
     pluginsJSCode := pluginsJSCode s; loadStats := loadStats s;
     executed := executed s; constructed := constructed s |}.

Definition set_pluginsStore (f : gset JSString -> gset JSString) (s : State) : State :=
  {| pluginsPool := pluginsPool s; pluginsStore := f (pluginsStore s);
     pluginsJSCode := pluginsJSCode s; loadStats := loadStats s;
     executed := executed s; constructed := constructed s |}.

Definition set_pluginsJSCode (f : gmap JSString PluginCode -> gmap JSString PluginCode)
  (s : State) : State :=
  {| pluginsPool := pluginsPool s; pluginsStore := pluginsStore s;
     pluginsJSCode := f (pluginsJSCode s); loadStats := loadStats s;
     executed := executed s; constructed := constructed s |}.

Definition set_loadStats (f : list LoadStat -> list LoadStat) (s : State) : State :=
  {| pluginsPool := pluginsPool s; pluginsStore := pluginsStore s;
     pluginsJSCode := pluginsJSCode s; loadStats := f (loadStats s);
     executed := executed s; constructed := constructed s |}.

Definition set_executed (f : list JSString -> list JSString) (s : State) : State :=
  {| pluginsPool := pluginsPool s; pluginsStore := pluginsStore s;
     pluginsJSCode := pluginsJSCode s; loadStats := loadStats s;
     executed := f (executed s); constructed := constructed s |}.

Definition set_constructed (f : nat -> nat) (s : State) : State :=
  {| pluginsPool := pluginsPool s; pluginsStore := pluginsStore s;
     pluginsJSCode := pluginsJSCode s; loadStats := loadStats s;
     executed := executed s; constructed := f (constructed s) |}.

(** [PluginFilter]: a field may be missing, or given as [undefined], or
    given a value; the object spread keeps the last two apart from the
    first. *)
Inductive Field (A : Type) :=
  | Absent
  | Undef
  | Given (a : A).
Arguments Absent {A}.
Arguments Undef {A}.
Arguments Given {A} a.

Record PluginFilter := {
  filter_enable : Field bool;
  filter_group : Field JSString
}.

(** [{ enable: true, group: '', ...filter }] *)
Definition merge_filter (filter : option PluginFilter) : PluginFilter :=
  match filter with
  | None => {| filter_enable := Given true; filter_group := Given [] |}
  | Some f =>
      {| filter_enable := match filter_enable f with
                          | Absent => Given true
                          | x => x
                          end;
         filter_group := match filter_group f with
                         | Absent => Given []
                         | x => x
                         end |}
  end.

(** [enable === filter.enable] *)
Definition field_is_bool (f : Field bool) (b : bool) : bool :=
  match f with
  | Given x => Bool.eqb b x
  | _ => false
  end.

(** [filter.group] as a condition *)
Definition truthy_field (f : Field JSString) : bool :=
  match f with
  | Given x => truthy_string x
  | _ => false
  end.

(** [filter.group === props.GROUP] *)
Definition field_is_string (f : Field JSString) (v : Value) : bool :=
  match f, v with
  | Given x, Str y => bool_decide (x = y)
  | Undef, Undefined => true
  | _, _ => false
  end.

(** Modelled from the spec: [chunkArray] of [../utils] is not among the
    sources; the records are partitioned, in order, into chunks of the
    given size, the last one possibly shorter. A size of [0] is outside
    the settings' range ([parallelism] is at least 1). *)
Fixpoint chunkArray_from {A} (fuel : nat) (l : list A) (size : nat) : list (list A) :=
  match fuel, l with
  | S fuel', _ :: _ => take size l :: chunkArray_from fuel' (drop size l) size
  | _, _ => []
  end.

(** Modelled from the spec: [chunkArray(all, size)], see
    [chunkArray_from]. *)
Definition chunkArray {A} (l : list A) (size : nat) : list (list A) :=
  chunkArray_from (length l) l size.

(** *** A state and error monad

    A method of the class runs from a state to a result and a state; what
    it changed before a [throw] stays changed. *)
Definition M (A : Type) : Type := State -> Result A * State.

Definition ret {A} (a : A) : M A := fun s => (Ok a, s).
Definition throw {A} (msg : JSString) : M A := fun s => (Err msg, s).
Definition bind {A B} (m : M A) (k : A -> M B) : M B :=
  fun s =>
    match m s with
    | (Ok a, s') => k a s'
    | (Err e, s') => (Err e, s')
    end.
Definition lift {A} (r : Result A) : M A := fun s => (r, s).
Definition gets {A} (f : State -> A) : M A := fun s => (Ok (f s), s).
Definition modify (f : State -> State) : M unit := fun s => (Ok tt, f s).

(** Modelled from the spec: [errorHandler] of [../utils] is not among the
    sources. A failure is handed to the caller "unwrapped to a message
    string": what was thrown reaches the caller as its message. *)
Definition errorHandler (e : JSString) : JSString := e.

(** [try { body } catch (e) { return errorHandler(e) }] *)
Definition try_catch {A} (body : M A) : M A :=
  fun s =>
    match body s with
    | (Ok a, s') => (Ok a, s')
    | (Err e, s') => (Err (errorHandler e), s')
    end.

Notation "x <- m ;; k" := (bind m (fun x => k))
  (at level 100, m at next level, right associativity).
Notation "m ;; k" := (bind m (fun _ => k))
  (at level 100, right associativity).

Section Methods.
Context (H : Host).

(** [getPluginStore(id)]: the cached store, created on first use. *)
Definition getPluginStore (id : JSString) : M unit :=
  modify (set_pluginsStore (fun m => {[id]} ∪ m)).

(** [GLOBAL_DB.store.pluginsJSCode.put] *)
Definition db_put (id : JSString) (r : PluginCode) : M unit :=
  match put_rejects H id r with
  | Some msg => throw msg
  | None => modify (set_pluginsJSCode (insert id r))
  end.

(** [GLOBAL_DB.store.pluginsJSCode.remove], when it takes effect. *)
Definition db_remove (id : JSString) : M unit :=
  modify (set_pluginsJSCode (delete id)).

(** [await GLOBAL_DB.store.pluginsJSCode.remove(id)]: a rejection is
    thrown to the caller. *)
Definition db_remove_awaited (id : JSString) : M unit :=
  match remove_rejects H id with
  | Some msg => throw msg
  | None => db_remove id
  end.

(** The key a validated [ID] is stored under. *)
Definition key (v : Value) : JSString :=
  match v with Str s => s | _ => [] end.

(** The double quote character, as a string. *)
Definition quote : JSString := [34%N].

(** The first lines of [import]: the source text. *)
Definition resolve_source (pluginFilePath jscode : option JSString) : Result JSString :=
  match pluginFilePath with
  | Some path =>
      match files H !! path with
      | None => Err ("Plugin file " ++ quote ++ path ++ quote ++ " not found")
      | Some text => Ok text
      end
  | None =>
      match jscode with
      | None => Err "Plugin jscode not found"
      | Some text => Ok text
      end
  end.

(** The static pass of [check], run when [!options || options.minify]:
    parse, walk, then mangle and print. Nothing of it runs the script. *)
Definition static_check (jscode : JSString) : Result JSString :=
  match parse H jscode with
  | Err e => Err e
  | Ok ast => walk ast ;;; Ok (print H ast)
  end.

Definition runs_static_check (options : option PluginImportOptions) : bool :=
  match options with
  | None => true
  | Some o => default false (Options.minify o)
  end.

(** [pluginExports]: run the script, then look at what it exported. *)
Definition pluginExports (jscode : JSString) : M PluginInterface :=
  try_catch (
    modify (set_executed (fun l => l ++ [jscode])) ;;
    match run H jscode with
    | Err e => throw e
    | Ok None => throw "Cannot find plugin"
    | Ok (Some exports) => ret exports
    end).

Definition check (jscode : JSString) (options : option PluginImportOptions)
  : M (PluginInterface * JSString) :=
  try_catch (
    jscode <- lift (if runs_static_check options then static_check jscode
                    else Ok jscode) ;;
    plugin <- pluginExports jscode ;;
    lift (_isPlugin plugin) ;;
    has <- gets (fun s =>
             bool_decide (is_Some (pluginsPool s !! key (ID (statics plugin))))) ;;
    if negb (opt Options.force options) && has
    then throw ("Plugin exists ID:" ++ key (ID (statics plugin)))
    else ret (plugin, jscode)).

(** [new PluginClass({request, store, cheerio, nanoid})]. The object
    [new] yields is taken to be a new one, known by the order of its
    construction; a constructor that returns an object of its own choice
    instead is not covered. *)
Definition construct (PluginClass : PluginInterface) : M Instance :=
  match constructor_throws PluginClass with
  | Some msg => throw msg
  | None =>
      n <- gets constructed ;;
      modify (set_constructed S) ;;
      ret n
  end.

Definition import (pluginFilePath jscode : option JSString)
  (options : option PluginImportOptions) : M Instance :=
  try_catch (
    jscode <- lift (resolve_source pluginFilePath jscode) ;;
    checked <- check jscode options ;;
    let PluginClass := fst checked in
    let code := snd checked in
    let ID := key (ID (statics PluginClass)) in
    getPluginStore ID ;;
    pluginClass <- construct PluginClass ;;
    (if negb (opt Options.debug options)
     then db_put ID {| jscode := code;
                       code_enable := opt Options.enable options |}
     else ret tt) ;;
    modify (set_pluginsPool (insert ID
      {| entry_enable := opt Options.enable options;
         props := statics PluginClass;
         instance := if opt Options.enable options
                     then Some pluginClass else None |})) ;;
    ret pluginClass).

Definition importJSCode (jscode : JSString) (options : option PluginImportOptions)
  : M Instance :=
  import None (Some jscode) options.

Definition importPluginFile (pluginFilePath : JSString)
  (options : option PluginImportOptions) : M Instance :=
  import (Some pluginFilePath) None options.

Definition not_found (id : JSString) : JSString := "Cannot find plugin, id:" ++ id.

Definition disable (id : JSString) : M unit :=
  try_catch (
    plugin <- gets (fun s => pluginsJSCode s !! id) ;;
    p <- gets (fun s => pluginsPool s !! id) ;;
    match plugin, p with
    | Some plugin, Some p =>
        db_put id {| jscode := jscode plugin; code_enable := false |} ;;
        modify (set_pluginsPool (insert id
          {| entry_enable := false; props := props p; instance := None |}))
    | _, _ => throw (not_found id)
    end).

Definition enable (id : JSString) : M unit :=
  try_catch (
    plugin <- gets (fun s => pluginsJSCode s !! id) ;;
    p <- gets (fun s => pluginsPool s !! id) ;;
    match plugin, p with
    | Some plugin, Some _ =>
        db_put id {| jscode := jscode plugin; code_enable := true |} ;;
        import None (Some (jscode plugin))
          (Some {| Options.force := Some true; Options.minify := Some true;
                   Options.debug := None; Options.enable := Some true |}) ;;
        ret tt
    | _, _ => throw (not_found id)
    end).

(** [delete(id)] of the class; [delete] is the map operation here. The
    method has no [try]: when the awaited [remove] rejects, the rejection
    is what the caller gets and [pluginsPool.delete] is not reached. *)
Definition delete_method (id : JSString) : M unit :=
  db_remove_awaited id ;;
  modify (set_pluginsPool (delete id)).

(** [getPluginsByType(type, filter)]. The entries come in the order of the
    map; the three [filter] calls are those of the source, the last one
    together with the [map] that follows it. *)
Definition getPluginsByType (type : PluginType) (filter : option PluginFilter)
  (s : State) : list (PluginBaseProps * Instance) :=
  let filter := merge_filter filter in
  let values := snd <$> map_to_list (pluginsPool s) in
  let by_type :=
    List.filter (fun e =>
      if negb (strict_eqb (TYPE (props e)) (Num (Int (PluginType_code type))))
      then false
      else if truthy_field (filter_group filter)
              && negb (field_is_string (filter_group filter) (GROUP (props e)))
      then false
      else true) values in
  let by_enable :=
    List.filter (fun e => field_is_bool (filter_enable filter) (entry_enable e))
      by_type in
  omap (fun e => match instance e with
                 | Some i => Some (props e, i)
                 | None => None
                 end) by_enable.

Definition getPluginInstanceByType (type : PluginType) (filter : option PluginFilter)
  (s : State) : list Instance :=
  snd <$> getPluginsByType type filter s.

(** One record of [importPool]: [importJSCode] with
    [{minify: false, force: true, enable}], then the [then] or the [catch]
    callback. The [remove] of the [catch] callback is not awaited and its
    promise is dropped: nothing of the class sees how it ends, and the
    record is taken to be removed before the load returns. *)
Definition load_record (r : JSString * PluginCode) : M unit :=
  fun s =>
    match importJSCode (jscode (snd r))
            (Some {| Options.force := Some true; Options.minify := Some false;
                     Options.debug := None;
                     Options.enable := Some (code_enable (snd r)) |}) s with
    | (Ok _, s') =>
        (Ok tt, set_loadStats (fun l => l ++ [{| stat_id := fst r; stat_error := None |}]) s')
    | (Err e, s') =>
        db_remove (fst r)
          (set_loadStats (fun l => l ++ [{| stat_id := fst r; stat_error := Some e |}]) s')
    end.

Fixpoint forEach {A} (f : A -> M unit) (l : list A) : M unit :=
  match l with
  | [] => ret tt
  | a :: r => f a ;; forEach f r
  end.

(** [importPool]: the imports of a chunk are started together and the
    chunk is awaited before the next one. With [force: true] an import
    reads nothing that another import writes, so each record is taken
    here from its import to its callback in one piece, the records of a
    chunk in the order [settle] gives. *)
Definition importPool : M unit :=
  try_catch (
    all <- gets (fun s => map_to_list (pluginsJSCode s)) ;;
    forEach (fun arr => forEach load_record (settle H arr))
      (chunkArray all (threadsNumber H))).

(** *** The stages of [import], one by one

    What each stage of the pipeline yields when the ones before it have
    passed; the statements about [import] are phrased with these. *)

(** The text handed to the interpreter: rewritten by the static pass when
    it runs, as given otherwise. *)
Definition rewritten (options : option PluginImportOptions) (text : JSString)
  : Result JSString :=
  if runs_static_check options then static_check text else Ok text.

(** The value [pluginExports] resolves to. *)
Definition exported (text : JSString) : Result PluginInterface :=
  match run H text with
  | Err e => Err e
  | Ok None => Err "Cannot find plugin"
  | Ok (Some exports) => Ok exports
  end.

(** The duplicate test of [check]. *)
Definition duplicate (options : option PluginImportOptions) (s : State)
  (plugin : PluginInterface) : bool :=
  negb (opt Options.force options)
  && bool_decide (is_Some (pluginsPool s !! key (ID (statics plugin)))).

(** The entry [import] registers. *)
Definition entry_of (options : option PluginImportOptions)
  (plugin : PluginInterface) (i : Instance) : PoolEntry :=
  {| entry_enable := opt Options.enable options;
     props := statics plugin;
     instance := if opt Options.enable options then Some i else None |}.

(** The record [import] persists. *)
Definition persisted (options : option PluginImportOptions) (text : JSString)
  : PluginCode :=
  {| jscode := text; code_enable := opt Options.enable options |}.

(** [fails_at options s path code e]: a stage of [import] before the
    database fails with [e], the stages before it having passed. *)
Inductive fails_at (options : option PluginImportOptions) (s : State)
  (pluginFilePath jscode : option JSString) : JSString -> Prop :=
  | fails_source e :
      resolve_source pluginFilePath jscode = Err e ->
      fails_at options s pluginFilePath jscode e
  | fails_static text e :
      resolve_source pluginFilePath jscode = Ok text ->
      runs_static_check options = true ->
      static_check text = Err e ->
      fails_at options s pluginFilePath jscode e
  | fails_execution text text' e :
      resolve_source pluginFilePath jscode = Ok text ->
      rewritten options text = Ok text' ->
      exported text' = Err e ->
      fails_at options s pluginFilePath jscode e
  | fails_schema text text' plugin e :
      resolve_source pluginFilePath jscode = Ok text ->
      rewritten options text = Ok text' ->
      exported text' = Ok plugin ->
      _isPlugin plugin = Err e ->
      fails_at options s pluginFilePath jscode e
  | fails_duplicate text text' plugin :
      resolve_source pluginFilePath jscode = Ok text ->
      rewritten options text = Ok text' ->
      exported text' = Ok plugin ->
      _isPlugin plugin = Ok tt ->
      duplicate options s plugin = true ->
      fails_at options s pluginFilePath jscode
        ("Plugin exists ID:" ++ key (ID (statics plugin)))
  | fails_construction text text' plugin e :
      resolve_source pluginFilePath jscode = Ok text ->
      rewritten options text = Ok text' ->
      exported text' = Ok plugin ->
      _isPlugin plugin = Ok tt ->
      duplicate options s plugin = false ->
      constructor_throws plugin = Some e ->
      fails_at options s pluginFilePath jscode e.

(** The options [importPool] imports a record with. *)
Definition pool_options (r : PluginCode) : option PluginImportOptions :=
  Some {| Options.force := Some true; Options.minify := Some false;
          Options.debug := None; Options.enable := Some (code_enable r) |}.

(** The outcome of importing a record on its own, into an empty
    registry: the record is valid when this is [Ok]. *)
Definition alone (r : PluginCode) : Result Instance :=
  fst (importJSCode (jscode r) (pool_options r) initial).

(** The entry of the load statistics for a record. *)
Definition outcome (r : JSString * PluginCode) : LoadStat :=
  {| stat_id := fst r;
     stat_error := match alone (snd r) with
                   | Ok _ => None
                   | Err e => Some e
                   end |}.

(** *** Calls on the class and the states they reach *)

Inductive Call :=
  | call_import (pluginFilePath jscode : option JSString)
                (options : option PluginImportOptions)
  | call_enable (id : JSString)
  | call_disable (id : JSString)
  | call_delete (id : JSString)
  | call_importPool.

(** The state a call leaves, whether it returns or throws. *)
Definition after (c : Call) (s : State) : State :=
  match c with
  | call_import path code options => snd (import path code options s)
  | call_enable id => snd (enable id s)
  | call_disable id => snd (disable id s)
  | call_delete id => snd (delete_method id s)
  | call_importPool => snd (importPool s)
  end.

(** The class starts with an empty registry over whatever the database
    holds. *)
Definition start (db : gmap JSString PluginCode) : State :=
  set_pluginsJSCode (fun _ => db) initial.

Inductive reachable : State -> Prop :=
  | reachable_start db : reachable (start db)
  | reachable_after c s : reachable s -> reachable (after c s).



End Methods.

(** The invariant of the registry: a disabled entry has no instance, and
    an instance is there only in an enabled entry and is one that was
    constructed. *)
Definition registry_invariant (s : State) : Prop :=
  ∀ id e, pluginsPool s !! id = Some e →
    (entry_enable e = false → instance e = None)
    ∧ (∀ i, instance e = Some i → entry_enable e = true ∧ i < constructed s).

(** The options [enable] imports the persisted source with. *)
Definition enable_options : option PluginImportOptions :=
  Some {| Options.force := Some true; Options.minify := Some true;
          Options.debug := None; Options.enable := Some true |}.

(** *** The read-only methods *)

(** [getPluginInstanceById(id)]: [val && val.instance]. [None] is
    [undefined], [Some None] is [null]. *)
Definition getPluginInstanceById (id : JSString) (s : State)
  : option (option Instance) :=
  instance <$> pluginsPool s !! id.

(** [getAllPlugins()], in the order of the map. *)
Definition getAllPlugins (s : State) : list PoolEntry :=
  snd <$> map_to_list (pluginsPool s).

(** [getPluginPropsById(id)]: [val && val.props]. *)
Definition getPluginPropsById (id : JSString) (s : State) : option PluginBaseProps :=
  props <$> pluginsPool s !! id.

(** [getPluginById(id)]: [undefined], or [{ props, instance }]. *)
Definition getPluginById (id : JSString) (s : State)
  : option (PluginBaseProps * option Instance) :=
  (fun e => (props e, instance e)) <$> pluginsPool s !! id.

(** *** What one write of the registry can be

    The class writes [pluginsPool] in three places: the [set] at the end
    of [import], the [set] of [disable], the [delete] of [delete]. A
    [change] is one of these, or none, together with what happens to the
    count of constructed instances. *)
Inductive change (s s' : State) : Prop :=
  | change_none :
      pluginsPool s' = pluginsPool s ->
      constructed s <= constructed s' ->
      change s s'
  | change_import options plugin :
      pluginsPool s'
      = <[key (ID (statics plugin)) := entry_of options plugin (constructed s)]>
          (pluginsPool s) ->
      constructed s' = S (constructed s) ->
      change s s'
  | change_disable id p :
      pluginsPool s !! id = Some p ->
      pluginsPool s'
      = <[id := {| entry_enable := false; props := props p; instance := None |}]>
          (pluginsPool s) ->
      constructed s' = constructed s ->
      change s s'
  | change_delete id :
      pluginsPool s' = delete id (pluginsPool s) ->
      constructed s' = constructed s ->
      change s s'.

(** What holds of every entry of a registry the class has built: its
    flag is [true] exactly when it has an instance, and its instance is
    one that was constructed. *)
Definition entry_wf (n : nat) (e : PoolEntry) : Prop :=
  (entry_enable e = true <-> is_Some (instance e))
  /\ (forall i, instance e = Some i -> i < n).

(** Every entry of the registry is well formed. *)
Definition registry_wf (s : State) : Prop :=
  forall id e, pluginsPool s !! id = Some e -> entry_wf (constructed s) e.

(** [registry_invariant] as a test that can be run on a given state. *)
Definition entry_sound (n : nat) (e : PoolEntry) : bool :=
  match instance e with
  | None => true
  | Some i => entry_enable e && (i <? n)
  end.

Definition registry_invariantb (s : State) : bool :=
  forallb (fun x => entry_sound (constructed s) (snd x))
          (map_to_list (pluginsPool s)).

End Registry.

(** ** The request capability handed to a plugin

    The [request] object [import] passes to [new PluginClass]: [get] and
    [post] decide about the proxy and hand the call to the transport
    ([requestGet], [requestPost] of [../request], which are outside this
    file). *)

Module Request.

Section Capability.
(** [RequestProxy], and the fields of a configuration other than [proxy]
    ([params], [headers], [urlencode], [charset]). *)
Context {RequestProxy Fields : Type}.

(** [PluginRequestConfig]; [proxy] absent is [None]. *)
Record PluginRequestConfig := {
  proxy : option bool;
  fields : Fields
}.

(** What the settings store says when the call is made:
    [settings.options.enableProxy] as a condition, and [settings.proxy]. *)
Record Settings := {
  enableProxy : bool;
  settings_proxy : option RequestProxy
}.

(** The configuration the transport receives, [{ ...config, proxy }]:
    the fields of [config] when there is one, and the proxy decided. *)
Record Outgoing := {
  out_fields : option Fields;
  out_proxy : option RequestProxy
}.

Inductive Method := GET | POST.

(** A call of the transport. *)
Record Call := {
  call_method : Method;
  call_url : JSString;
  call_config : Outgoing
}.

(** The body shared by [get] and [post]. *)
Definition send (m : Method) (settings : Settings) (url : JSString)
  (config : option PluginRequestConfig) : Result Call :=
  let asked := default false (config ≫= proxy) in
  rbind
    (if asked then
       match enableProxy settings, settings_proxy settings with
       | true, Some p => Ok (Some p)
       | _, _ => Err "Proxy not enabled"
       end
     else Ok None)
    (fun p =>
       Ok {| call_method := m;
             call_url := url;
             call_config := {| out_fields := fields <$> config;
                               out_proxy := p |} |}).

Definition get := send GET.
Definition post := send POST.

End Capability.
Arguments PluginRequestConfig : clear implicits.
Arguments Settings : clear implicits.
Arguments Outgoing : clear implicits.
Arguments Call : clear implicits.

End Request.

(** ** The store of a plugin: [getPluginStore]

    The same method as in the registry above, now with the stores
    themselves: the cache [pluginsStore] and the calls made to
    [storeCreateFunction]. *)

Module StoreManager.

(** [PLUGIN_STORE_MAX_BYTE_LENGTH] *)
Definition PLUGIN_STORE_MAX_BYTE_LENGTH : N := 4 * 1024 * 1024.

Section Manager.
Context {Store : Type} (storeCreateFunction : JSString -> N -> Store).

Record Stores := {
  pluginsStore : gmap JSString Store;
  created : list (JSString * N)     (* the calls of [storeCreateFunction] *)
}.

Definition empty : Stores := {| pluginsStore := ∅; created := [] |}.

Definition getPluginStore (id : JSString) (st : Stores) : Store * Stores :=
  match pluginsStore st !! id with
  | Some s => (s, st)
  | None =>
      let s := storeCreateFunction id PLUGIN_STORE_MAX_BYTE_LENGTH in
      (s, {| pluginsStore := <[id := s]> (pluginsStore st);
             created := created st ++ [(id, PLUGIN_STORE_MAX_BYTE_LENGTH)] |})
  end.

(** The manager after the stores of [ids] were asked for, one after the
    other. *)
Definition after_gets (ids : list JSString) (st : Stores) : Stores :=
  foldl (fun st id => snd (getPluginStore id st)) st ids.

(** What holds of the manager at every moment: a cached store is the one
    [storeCreateFunction] made for that id with the fixed budget, the ids
    that have a store are those a store was created for, and no id had a
    store created twice. *)
Definition sound (st : Stores) : Prop :=
  (forall id s, pluginsStore st !! id = Some s ->
     s = storeCreateFunction id PLUGIN_STORE_MAX_BYTE_LENGTH)
  /\ NoDup (created st).*1
  /\ (forall id, id ∈ (created st).*1 <-> is_Some (pluginsStore st !! id))
  /\ (forall x, x ∈ created st -> x.2 = PLUGIN_STORE_MAX_BYTE_LENGTH).

End Manager.
End StoreManager.

(** ** Concrete plugins, scripts and hosts *)

Module Examples.
Import JS Schema Registry.

Definition source_prototype : Prototype :=
  {| search := Function; getDetail := Function; getTextContent := Function |}.

(** The descriptor of the specification's example, with a given [ID] and
    [TYPE]. *)
Definition descriptor (id : JSString) (type : Z) : PluginBaseProps :=
  {| ID := Str id;
     TYPE := Num (Int type);
     GROUP := Str "news";
     NAME := Str "Demo";
     VERSION := Str "1.0";
     VERSION_CODE := Num (Int 1);
     PLUGIN_FILE_URL := Str [];
     BASE_URL := Str "http://example.com" |}.

Definition plugin (id : JSString) (type : Z) : PluginInterface :=
  {| statics := descriptor id type;
     prototype := Some source_prototype;
     constructor_throws := None |}.

Definition demo_id : JSString := "abcdefghij123456".
Definition demo_plugin : PluginInterface := plugin demo_id 0.

(** A name of six Chinese characters (U+7B14 U+8DA3 U+9601 U+5C0F U+8BF4
    U+7F51), each one code unit, and a plugin that carries it. *)
Definition cjk_name : JSString :=
  [31508; 36259; 38401; 23567; 35828; 32593]%N.

Definition cjk_plugin : PluginInterface :=
  {| statics :=
       {| ID := Str demo_id;
          TYPE := Num (Int 0);
          GROUP := Str "news";
          NAME := Str cjk_name;
          VERSION := Str [];
          VERSION_CODE := Num (Int 1);
          PLUGIN_FILE_URL := Str "HTTPS://example.com/plugin.JS";
          BASE_URL := Str "http://example.com" |};
     prototype := Some source_prototype;
     constructor_throws := None |}.

(** An [ID] of 16 characters, the last of which is outside
    [[A-Za-z0-9_-]]. *)
Definition odd_id : JSString := "abcdefghij12345!".

Definition id16 : JSString := "abcdefghij123456".
Definition id32 : JSString := "abcdefghij123456abcdefghij123456".

(** Three scripts: one that exports the demo plugin, the same preceded by
    a dynamic import, and one that exports nothing. *)
Definition demo_script : JSString :=
  "plugin.exports = class Demo { /* abcdefghij123456 */ }".
Definition importing_script : JSString :=
  "import('fs'); plugin.exports = class Demo { /* abcdefghij123456 */ }".
Definition empty_script : JSString := "var x".

Definition demo_ast : Node :=
  AST_Node None (Some (js "plugin")) 1
    [AST_Node None (Some (js "plugin")) 1
       [AST_Node (Some (js "Demo")) (Some (js "class")) 1 []]].

Definition importing_ast : Node :=
  AST_Node None (Some (js "import")) 1
    [AST_Node None (Some (js "import")) 1 [AST_Node None (Some (js "fs")) 1 []];
     AST_Node None (Some (js "plugin")) 1
       [AST_Node (Some (js "Demo")) (Some (js "class")) 1 []]].

Definition demo_parse (text : JSString) : Result Node :=
  if bool_decide (text = importing_script) then Ok importing_ast
  else if bool_decide (text = demo_script) then Ok demo_ast
  else Ok (AST_Node None None 1 []).

(** The printer keeps the text of the only script it is given here. *)
Definition demo_print (ast : Node) : JSString := demo_script.

Definition demo_run (text : JSString) : Result (option PluginInterface) :=
  if bool_decide (text = demo_script) then Ok (Some demo_plugin)
  else if bool_decide (text = importing_script) then Ok (Some demo_plugin)
  else Ok None.

Definition host : Host :=
  {| files := ∅;
     parse := demo_parse;
     print := demo_print;
     run := demo_run;
     put_rejects := fun _ _ => None;
     remove_rejects := fun _ => None;
     threadsNumber := 2;
     settle := fun arr => arr |}.

(** The same host with a database that rejects every [remove]. *)
Definition host_without_remove : Host :=
  {| files := ∅;
     parse := demo_parse;
     print := demo_print;
     run := demo_run;
     put_rejects := fun _ _ => None;
     remove_rejects := fun _ => Some (js "InvalidStateError");
     threadsNumber := 2;
     settle := fun arr => arr |}.

(** The same host with a database that rejects every [put]. *)
Definition host_without_database : Host :=
  {| files := ∅;
     parse := demo_parse;
     print := demo_print;
     run := demo_run;
     put_rejects := fun _ _ => Some (js "QuotaExceededError");
     remove_rejects := fun _ => None;
     threadsNumber := 2;
     settle := fun arr => arr |}.

Definition enabling : option PluginImportOptions :=
  Some {| Options.force := None; Options.minify := Some true;
          Options.debug := None; Options.enable := Some true |}.

(** Options that say nothing about [minify]. *)
Definition enabling_only : option PluginImportOptions :=
  Some {| Options.force := None; Options.minify := None;
          Options.debug := None; Options.enable := Some true |}.

(** A database with a good record and a record whose script exports
    nothing. *)
Definition broken_id : JSString := "brokenbrokenbroken".

Definition mixed_database : gmap JSString PluginCode :=
  {[ demo_id := {| jscode := demo_script; code_enable := true |};
     broken_id := {| jscode := empty_script; code_enable := true |} ]}.

Definition mixed_state : State := start mixed_database.

(** The registry once the demo plugin is imported and enabled, and once
    it is disabled again. *)
Definition registered_state : State :=
  after host (call_import None (Some demo_script) enabling) (start ∅).

Definition disabled_state : State :=
  after host (call_disable demo_id) registered_state.

End Examples.

(** ** A host with two plugins *)

Module Library.
Import JS Schema Registry Examples.

Definition second_id : JSString := "zyxwvutsrq654321".
Definition second_plugin : PluginInterface := plugin second_id 0.

Definition second_script : JSString :=
  "plugin.exports = class Second { /* zyxwvutsrq654321 */ }".

(** A script whose tree has two imports, the first on line 3 inside a
    function, the second on line 5. *)
Definition newline : JSString := [10%N].

Definition nested_script : JSString :=
  "function f() {" ++ newline ++
  "  var x;" ++ newline ++
  "  import('a');" ++ newline ++
  "}" ++ newline ++
  "import('b');".

Definition second_ast : Node :=
  AST_Node None (Some (js "plugin")) 1
    [AST_Node (Some (js "Second")) (Some (js "class")) 1 []].

Definition nested_ast : Node :=
  AST_Node None (Some (js "function")) 1
    [AST_Node (Some (js "f")) (Some (js "function")) 1
       [AST_Node (Some (js "x")) (Some (js "var")) 2 [];
        AST_Node None (Some (js "import")) 3 [AST_Node None (Some (js "a")) 3 []]];
     AST_Node None (Some (js "import")) 5 [AST_Node None (Some (js "b")) 5 []]].

Definition library_parse (text : JSString) : Result Node :=
  if bool_decide (text = second_script) then Ok second_ast
  else if bool_decide (text = nested_script) then Ok nested_ast
  else demo_parse text.

Definition is_second (ast : Node) : bool :=
  match children ast with
  | c :: _ => bool_decide (node_name c = Some (js "Second"))
  | [] => false
  end.

Definition library_print (ast : Node) : JSString :=
  if is_second ast then second_script else demo_script.

Definition library_run (text : JSString) : Result (option PluginInterface) :=
  if bool_decide (text = second_script) then Ok (Some second_plugin)
  else demo_run text.

(** The path of a file that holds [nested_script]. *)
Definition nested_path : JSString := "/plugins/nested.js".

Definition library_host : Host :=
  {| files := {[ nested_path := nested_script ]};
     parse := library_parse;
     print := library_print;
     run := library_run;
     put_rejects := fun _ _ => None;
     remove_rejects := fun _ => None;
     threadsNumber := 1;
     settle := fun arr => arr |}.

(** The registry once both plugins are imported and enabled. *)
Definition library_state : State :=
  after library_host (call_import None (Some second_script) enabling)
    (after library_host (call_import None (Some demo_script) enabling)
       (start ∅)).

End Library.

(** * Properties *)

(** ** The schema validator *)

Section SchemaFacts.
Import JS Schema Examples.

Lemma rbind_Ok {A B} (r : Result A) (k : A -> Result B) b :
  rbind r k = Ok b -> exists a, r = Ok a /\ k a = Ok b.
Proof. destruct r as [a|m]; simpl; [eauto | discriminate]. Qed.

Lemma throwIf_Ok c msg : throwIf c msg = Ok tt -> c = false.
Proof. by destruct c. Qed.

(** C5. The validator is to reject an [ID] that has a character outside
    [[A-Za-z0-9_-]]; the source tests the class with a pattern that has no
    anchors, so one character of the class is enough. Here the code runs
    on the example descriptor with the [ID] ["abcdefghij12345!"]: its last
    character is outside the class, and the descriptor is accepted. The
    boundary lengths 16 and 32 are accepted, as claimed. *)
Theorem odd_id_accepted :
  forallb isIdChar odd_id = false
  /\ length odd_id = 16
  /\ _isPlugin (plugin odd_id 0) = Ok tt
  /\ isPlugin (plugin odd_id 0) = true
  /\ _isPlugin (plugin id16 0) = Ok tt
  /\ _isPlugin (plugin id32 0) = Ok tt.
Proof. repeat split; reflexivity. Qed.

(** C8. A candidate whose [TYPE] is [BOOK_STORE] goes to [_isBookStore],
    which throws: when its static fields pass, [_isPlugin] fails with
    [unknown]; whether they pass or not, [isPlugin] answers [false]. *)
Theorem store_type_never_passes (p : PluginInterface) :
  TYPE (statics p) = Num (Int (PluginType_code BOOK_STORE)) ->
  dispatch_TYPE p = Err "unknown"
  /\ (check_statics (statics p) = Ok tt -> _isPlugin p = Err "unknown")
  /\ isPlugin p = false.
Proof.
  intros HT.
  assert (Hd : dispatch_TYPE p = Err "unknown").
  { unfold dispatch_TYPE. by rewrite HT. }
  split; [done|]. unfold isPlugin, _isPlugin. rewrite Hd. split.
  - by intros ->.
  - by destruct (check_statics (statics p)) as [[]|].
Qed.

Lemma store_type_never_passes_witness :
  check_statics (statics (plugin demo_id 1)) = Ok tt
  /\ _isPlugin (plugin demo_id 1) = Err "unknown"
  /\ isPlugin (plugin demo_id 1) = false.
Proof.
  pose proof (store_type_never_passes (plugin demo_id 1) eq_refl)
    as (_ & H1 & H2).
  split; [reflexivity|]. split; [apply H1; reflexivity | exact H2].
Defined.

End SchemaFacts.

(** ** The proxy handler *)

Section HandlerFacts.
Import Sandbox.
Context (R : Realm).

Lemma get_absent h n l p :
  p <> Symbol_unscopables ->
  find_property h l p = None ->
  get R h n l p = Throw (denied_access p).
Proof.
  intros Hp Hf. induction n as [|n IH]; simpl;
    rewrite bool_decide_eq_false_2 by done.
  - unfold ordinary_has. rewrite Hf.
    rewrite bool_decide_eq_false_2; [done|]. by intros [? ?].
  - by rewrite IH.
Qed.

Lemma get_window h n l p :
  p <> Symbol_unscopables ->
  find_property h l p = Some (VRef 0 (window R)) ->
  get R h n l p = Throw (denied_access p).
Proof.
  intros Hp Hf. induction n as [|n IH]; simpl;
    rewrite bool_decide_eq_false_2 by done.
  - unfold ordinary_has, ordinary_get. rewrite Hf.
    rewrite bool_decide_eq_true_2 by eauto. simpl.
    unfold get_found, is_window. by rewrite bool_decide_eq_true_2.
  - by rewrite IH.
Qed.

Lemma lookup_chain_Reflect_set_ne fuel h l p v l0 q :
  q <> p ->
  lookup_chain fuel (Reflect_set h l p v) l0 q = lookup_chain fuel h l0 q.
Proof.
  intros Hq. revert l0. induction fuel as [|fuel IH]; intros l0; [done|].
  simpl. unfold Reflect_set at 1. rewrite lookup_alter.
  case_decide as Hl; [subst l0|].
  - destruct (h !! l) as [o|]; simpl; [|done].
    rewrite lookup_insert_ne by done.
    destruct (own o !! q); [done|].
    destruct (proto o); [apply IH | done].
  - destruct (h !! l0) as [o|]; [|done].
    destruct (own o !! q); [done|].
    destruct (proto o); [apply IH | done].
Qed.

Lemma size_Reflect_set h l p v : size (Reflect_set h l p v) = size h.
Proof.
  unfold Reflect_set.
  rewrite <- !(size_dom (D := gset loc)). by rewrite dom_alter_L.
Qed.

Lemma find_property_Reflect_set_ne h l p v l0 q :
  q <> p ->
  find_property (Reflect_set h l p v) l0 q = find_property h l0 q.
Proof.
  intros Hq. unfold find_property.
  rewrite size_Reflect_set. by apply lookup_chain_Reflect_set_ne.
Qed.

Lemma find_property_Reflect_set_eq h l p v :
  is_Some (h !! l) ->
  find_property (Reflect_set h l p v) l p = Some v.
Proof.
  intros [o Ho]. unfold find_property. rewrite size_Reflect_set.
  destruct (size h) as [|n] eqn:Hn.
  { apply map_size_empty_iff in Hn. subst h. by rewrite lookup_empty in Ho. }
  simpl. unfold Reflect_set. rewrite lookup_alter_eq, Ho. simpl.
  by rewrite lookup_insert_eq.
Qed.

End HandlerFacts.

Section InitialHeapFacts.
Import Sandbox.

(** C1. The claim: a read of a name that is not in the allow-list is
    refused, and an object is handed out only behind a proxy with the
    same rule, so that the rule cannot be left through a prototype or a
    constructor. On the heap [runScript] starts from, the handler does
    otherwise.
    - [constructor] and [hasOwnProperty] are not names of the [sandbox]
      literal. The trap tests [p in target], which finds them on
      [Object.prototype], and answers [Object] and the method.
    - [String] is a name of the literal. Its value is a function, its
      [typeof] is not ['object'], and the trap answers the function
      itself, not a proxy over it.
    - From there no read is intercepted. [Function] is not a name of the
      literal and the read of the identifier is refused, yet
      [String.constructor] answers [Function]; [String.prototype] answers
      the prototype object itself. *)
Theorem reads_escape_interception :
  own_property initial_heap l_sandbox (KString "constructor") = None
  /\ own_property initial_heap l_sandbox (KString "hasOwnProperty") = None
  /\ own_property initial_heap l_sandbox (KString "Function") = None
  /\ read_identifier realm initial_heap "constructor"
     = Normal (VRef 0 l_Object)
  /\ read_identifier realm initial_heap "hasOwnProperty"
     = Normal (VRef 0 l_hasOwnProperty)
  /\ read_identifier realm initial_heap "Function"
     = Throw (Message
                "Permission denied to access property or function [Function]")
  /\ read_identifier realm initial_heap "String" = Normal (VRef 0 l_String)
  /\ read_member realm initial_heap (VRef 0 l_String) (KString "constructor")
     = Normal (VRef 0 l_Function)
  /\ read_member realm initial_heap (VRef 0 l_String) (KString "prototype")
     = Normal (VRef 0 l_String_prototype).
Proof. repeat split; vm_compute; reflexivity. Qed.

(** C4. The claim: every write a script makes through the container is
    refused, but for the one to [plugin.exports]. On the heap [runScript]
    starts from, a write on what the handler handed out without a proxy
    is not seen by the [set] trap.
    - [String] reads as the function itself, so [String.foo = 1] is an
      ordinary write: it returns and [String] has the property.
    - [String.prototype] reads as the prototype itself, so
      [String.prototype.trim = isNaN] is an ordinary write too: it
      returns and the method of the host's strings is replaced.
    - The same writes on a bare identifier are refused, and the write of
      [plugin.exports] is stored, as claimed. *)
Theorem writes_escape_interception :
  read_identifier realm initial_heap "String" = Normal (VRef 0 l_String)
  /\ own_property initial_heap l_String (KString "foo") = None
  /\ write_member realm initial_heap (VRef 0 l_String) (KString "foo")
       (VNumber 1)
     = Normal (Reflect_set initial_heap l_String (KString "foo") (VNumber 1))
  /\ own_property
       (Reflect_set initial_heap l_String (KString "foo") (VNumber 1))
       l_String (KString "foo")
     = Some (VNumber 1)
  /\ read_member realm initial_heap (VRef 0 l_String) (KString "prototype")
     = Normal (VRef 0 l_String_prototype)
  /\ own_property initial_heap l_String_prototype (KString "trim")
     = Some (VRef 0 l_trim)
  /\ read_identifier realm initial_heap "isNaN" = Normal (VRef 0 32)
  /\ write_member realm initial_heap (VRef 0 l_String_prototype)
       (KString "trim") (VRef 0 32)
     = Normal (Reflect_set initial_heap l_String_prototype (KString "trim")
                 (VRef 0 32))
  /\ own_property
       (Reflect_set initial_heap l_String_prototype (KString "trim")
          (VRef 0 32))
       l_String_prototype (KString "trim")
     = Some (VRef 0 32)
  /\ write_identifier realm initial_heap "foo" (VNumber 1)
     = Throw (Message "Permission denied to set property or function [foo]")
  /\ read_identifier realm initial_heap "plugin" = Normal (VRef 1 l_plugin)
  /\ write_member realm initial_heap (VRef 1 l_plugin) (KString "exports")
       (VRef 0 l_Date)
     = Normal (Reflect_set initial_heap l_plugin (KString "exports")
                 (VRef 0 l_Date))
  /\ exports realm
       (Reflect_set initial_heap l_plugin (KString "exports") (VRef 0 l_Date))
     = VRef 0 l_Date.
Proof. repeat split; vm_compute; reflexivity. Qed.

End InitialHeapFacts.

(** ** The registry *)

Section RegistryFacts.
Import JS Schema Registry.
Context (H : Host).

Lemma try_catch_run {A} (body : M A) s : try_catch body s = body s.
Proof. unfold try_catch, errorHandler. by destruct (body s) as [[a|e] s']. Qed.

(** [check], stage by stage. *)
Lemma check_run text options s :
  check H text options s =
  match rewritten H options text with
  | Err e => (Err e, s)
  | Ok text' =>
      let s1 := set_executed (fun l => l ++ [text']) s in
      match exported H text' with
      | Err e => (Err e, s1)
      | Ok plugin =>
          match _isPlugin plugin with
          | Err e => (Err e, s1)
          | Ok _ =>
              if duplicate options s plugin
              then (Err ("Plugin exists ID:" ++ key (ID (statics plugin))), s1)
              else (Ok (plugin, text'), s1)
          end
      end
  end.
Proof.
  unfold check. rewrite try_catch_run.
  unfold rewritten, exported, duplicate, pluginExports, bind at 1 2, lift.
  destruct (if runs_static_check options then static_check H text else Ok text)
    as [text'|e]; [|done]. rewrite try_catch_run.
  unfold bind, gets, modify, throw, ret. simpl.
  destruct (run H text') as [[plugin|]|e]; simpl; try done.
  destruct (_isPlugin plugin) as [[]|e]; simpl; [|done].
  by destruct (negb (opt Options.force options) && _).
Qed.

(** [import], stage by stage. *)
Lemma import_run path code options s :
  import H path code options s =
  match resolve_source H path code with
  | Err e => (Err e, s)
  | Ok text =>
      match check H text options s with
      | (Err e, s1) => (Err e, s1)
      | (Ok (plugin, text'), s1) =>
          let id := key (ID (statics plugin)) in
          let s2 := set_pluginsStore (fun m => {[id]} ∪ m) s1 in
          match constructor_throws plugin with
          | Some e => (Err e, s2)
          | None =>
              let s3 := set_constructed S s2 in
              let entry := entry_of options plugin (constructed s1) in
              if opt Options.debug options
              then (Ok (constructed s1), set_pluginsPool (insert id entry) s3)
              else
                match put_rejects H id (persisted options text') with
                | Some e => (Err e, s3)
                | None =>
                    (Ok (constructed s1),
                     set_pluginsPool (insert id entry)
                       (set_pluginsJSCode (insert id (persisted options text')) s3))
                end
          end
      end
  end.
Proof.
  unfold import. rewrite try_catch_run. unfold bind at 1, lift.
  destruct (resolve_source H path code) as [text|e]; [|done].
  unfold bind at 1.
  destruct (check H text options s) as [[[plugin text']|e] s1]; [|done].
  simpl. unfold getPluginStore, construct, db_put, persisted, entry_of,
    bind, modify, gets, throw, ret. simpl.
  destruct (constructor_throws plugin) as [e|]; [done|]. simpl.
  destruct (opt Options.debug options); simpl; [done|].
  by destruct (put_rejects H _ _).
Qed.

(** [check] leaves the registry, the database, the statistics and the
    count of instances as they are. *)
Lemma check_unchanged text options s r s1 :
  check H text options s = (r, s1) ->
  pluginsPool s1 = pluginsPool s
  /\ pluginsJSCode s1 = pluginsJSCode s
  /\ loadStats s1 = loadStats s
  /\ constructed s1 = constructed s.
Proof.
  rewrite check_run.
  destruct (rewritten H options text) as [text'|e]; simpl.
  2: { by intros [= _ <-]. }
  destruct (exported H text') as [plugin|e]; [|by intros [= _ <-]].
  destruct (_isPlugin plugin) as [[]|e]; [|by intros [= _ <-]].
  destruct (duplicate options s plugin); by intros [= _ <-].
Qed.

(** An [import] that throws leaves the registry and the database as they
    are. *)
Lemma import_Err_unchanged path code options s e s' :
  import H path code options s = (Err e, s') ->
  pluginsPool s' = pluginsPool s /\ pluginsJSCode s' = pluginsJSCode s.
Proof.
  rewrite import_run.
  destruct (resolve_source H path code) as [text|e0]; [|by intros [= _ <-]].
  destruct (check H text options s) as [[[plugin text']|e0] s1] eqn:Hc;
    apply check_unchanged in Hc as (Hp & Hd & _ & _).
  2: { by intros [= _ <-]. }
  simpl. destruct (constructor_throws plugin) as [e0|].
  { by intros [= _ <-]. }
  destruct (opt Options.debug options); [discriminate|].
  destruct (put_rejects H _ _); [|discriminate].
  by intros [= _ <-].
Qed.

(** C3. When a stage of [import] fails (the source text, the static
    pass, the run of the script, the schema, the duplicate test, the
    construction of the instance), [import] throws the error of that stage
    and the registry and the database are what they were. *)
Theorem import_fails_closed options s path code e :
  fails_at H options s path code e ->
  exists s',
    import H path code options s = (Err e, s')
    /\ pluginsPool s' = pluginsPool s
    /\ pluginsJSCode s' = pluginsJSCode s.
Proof.
  intros Hf.
  assert (Hi : exists s', import H path code options s = (Err e, s')).
  { rewrite import_run.
    destruct Hf as [e Hr|text e Hr Hs Hc|text text' e Hr Hw He
                   |text text' plugin e Hr Hw He Hv
                   |text text' plugin Hr Hw He Hv Hd
                   |text text' plugin e Hr Hw He Hv Hd Hn]; rewrite Hr.
    - eauto.
    - rewrite check_run. unfold rewritten. rewrite Hs, Hc. eauto.
    - rewrite check_run, Hw. simpl. rewrite He. eauto.
    - rewrite check_run, Hw. simpl. rewrite He, Hv. eauto.
    - rewrite check_run, Hw. simpl. rewrite He, Hv, Hd. eauto.
    - rewrite check_run, Hw. simpl. rewrite He, Hv, Hd. simpl.
      rewrite Hn. eauto. }
  destruct Hi as [s' Hi]. exists s'. split; [done|].
  by apply import_Err_unchanged in Hi.
Qed.

(** C2, as the code has it. [put] is awaited inside the [try] of
    [import], before the registry is written: when every stage has passed,
    [debug] is not set and [put] rejects with [e], [import] throws [e],
    nothing is registered and the database is what it was. *)
Theorem import_put_rejected options s path code text text' plugin e :
  resolve_source H path code = Ok text ->
  rewritten H options text = Ok text' ->
  exported H text' = Ok plugin ->
  _isPlugin plugin = Ok tt ->
  duplicate options s plugin = false ->
  constructor_throws plugin = None ->
  opt Options.debug options = false ->
  put_rejects H (key (ID (statics plugin))) (persisted options text') = Some e ->
  exists s',
    import H path code options s = (Err e, s')
    /\ pluginsPool s' = pluginsPool s
    /\ pluginsJSCode s' = pluginsJSCode s.
Proof.
  intros Hr Hw He Hv Hd Hn Hg Hp.
  assert (Hi : exists s', import H path code options s = (Err e, s')).
  { rewrite import_run, Hr, check_run, Hw. simpl.
    rewrite He, Hv, Hd. simpl. rewrite Hn, Hg, Hp. eauto. }
  destruct Hi as [s' Hi]. exists s'. split; [done|].
  by apply import_Err_unchanged in Hi.
Qed.

Lemma Node_induction (P : Node -> Prop) :
  (forall name value line cs, Forall P cs -> P (AST_Node name value line cs)) ->
  forall n, P n.
Proof.
  intros IH. fix rec 1. intros [name value line cs]. apply IH.
  induction cs as [|c cs IHcs]; constructor; [apply rec | apply IHcs].
Qed.

(** *** The invariant of the registry *)

Lemma registry_invariantb_spec s :
  registry_invariantb s = true <-> registry_invariant s.
Proof.
  unfold registry_invariantb, registry_invariant.
  rewrite forallb_forall. split.
  - intros Hall id e He.
    apply elem_of_map_to_list, list_elem_of_In in He.
    specialize (Hall _ He). unfold entry_sound in Hall. simpl in Hall.
    destruct (instance e) as [i|]; [|by split].
    apply andb_true_iff in Hall as [Hen Hlt]. apply Nat.ltb_lt in Hlt.
    split; [by rewrite Hen|]. by intros j [= <-].
  - intros Hinv [id e] He.
    apply list_elem_of_In, elem_of_map_to_list in He.
    destruct (Hinv id e He) as [_ Hi]. unfold entry_sound. simpl.
    destruct (instance e) as [i|]; [|done].
    destruct (Hi i eq_refl) as [-> Hlt]. by apply Nat.ltb_lt.
Qed.

Lemma invariant_weaken s s' :
  registry_invariant s ->
  pluginsPool s' = pluginsPool s ->
  constructed s <= constructed s' ->
  registry_invariant s'.
Proof.
  intros Hinv Hp Hc id e He. rewrite Hp in He.
  destruct (Hinv id e He) as [H1 H2]. split; [done|].
  intros i Hi. destruct (H2 i Hi). split; [done | lia].
Qed.

Lemma invariant_insert s s' id e :
  registry_invariant s ->
  pluginsPool s' = <[id := e]> (pluginsPool s) ->
  constructed s <= constructed s' ->
  (entry_enable e = false -> instance e = None) ->
  (forall i, instance e = Some i -> entry_enable e = true /\ i < constructed s') ->
  registry_invariant s'.
Proof.
  intros Hinv Hp Hc He1 He2 id' e' He'. rewrite Hp in He'.
  apply lookup_insert_Some in He' as [[_ <-]|[_ He']]; [done|].
  destruct (Hinv id' e' He') as [H1 H2]. split; [done|].
  intros i Hi. destruct (H2 i Hi). split; [done | lia].
Qed.

Lemma invariant_delete s s' id :
  registry_invariant s ->
  pluginsPool s' = delete id (pluginsPool s) ->
  constructed s <= constructed s' ->
  registry_invariant s'.
Proof.
  intros Hinv Hp Hc id' e' He'. rewrite Hp in He'.
  apply lookup_delete_Some in He' as [_ He'].
  destruct (Hinv id' e' He') as [H1 H2]. split; [done|].
  intros i Hi. destruct (H2 i Hi). split; [done | lia].
Qed.

Lemma entry_of_sound options plugin i n :
  i < n ->
  (entry_enable (entry_of options plugin i) = false ->
     instance (entry_of options plugin i) = None)
  /\ (forall j, instance (entry_of options plugin i) = Some j ->
        entry_enable (entry_of options plugin i) = true /\ j < n).
Proof.
  intros Hi. unfold entry_of. simpl.
  destruct (opt Options.enable options); split; try done.
  by intros j [= <-].
Qed.

Lemma import_preserves path code options s :
  registry_invariant s ->
  registry_invariant (snd (import H path code options s)).
Proof.
  intros Hinv. rewrite import_run.
  destruct (resolve_source H path code) as [text|e]; [|done].
  destruct (check H text options s) as [[[plugin text']|e] s1] eqn:Hc;
    apply check_unchanged in Hc as (Hp & _ & _ & Hn); simpl.
  2: { apply (invariant_weaken s); [done | done | lia]. }
  destruct (constructor_throws plugin) as [e|]; simpl.
  { apply (invariant_weaken s); [done | done | simpl; lia]. }
  pose proof (entry_of_sound options plugin (constructed s1)
                (S (constructed s1)) (Nat.lt_succ_diag_r _)) as [He1 He2].
  destruct (opt Options.debug options); simpl.
  { eapply (invariant_insert s); [done | simpl; by rewrite Hp | simpl; lia
                                 | done | done]. }
  destruct (put_rejects H _ _); simpl.
  { apply (invariant_weaken s); [done | done | simpl; lia]. }
  eapply (invariant_insert s); [done | simpl; by rewrite Hp | simpl; lia
                               | done | done].
Qed.

Lemma db_put_unchanged id r s :
  pluginsPool (snd (db_put H id r s)) = pluginsPool s
  /\ constructed (snd (db_put H id r s)) = constructed s.
Proof. unfold db_put. by destruct (put_rejects H id r). Qed.

Lemma disable_preserves id s :
  registry_invariant s -> registry_invariant (snd (disable H id s)).
Proof.
  intros Hinv. unfold disable. rewrite try_catch_run.
  unfold bind, gets. simpl.
  destruct (pluginsJSCode s !! id) as [plugin|]; [|done].
  destruct (pluginsPool s !! id) as [p|]; [|done].
  unfold db_put. destruct (put_rejects H id _); simpl; [done|].
  eapply (invariant_insert s); [done | reflexivity | simpl; lia | done | done].
Qed.

Lemma enable_preserves id s :
  registry_invariant s -> registry_invariant (snd (enable H id s)).
Proof.
  intros Hinv. unfold enable. rewrite try_catch_run.
  unfold bind at 1 2, gets. simpl.
  destruct (pluginsJSCode s !! id) as [plugin|]; [|done].
  destruct (pluginsPool s !! id) as [p|]; [|done].
  unfold bind at 1.
  destruct (db_put H id _ s) as [[[]|e] s1] eqn:Hput;
    pose proof (db_put_unchanged id
                  {| jscode := jscode plugin; code_enable := true |} s) as [Hp Hn];
    rewrite Hput in Hp, Hn; simpl in Hp, Hn.
  2: { simpl. apply (invariant_weaken s); [done | done | lia]. }
  assert (Hinv1 : registry_invariant s1).
  { apply (invariant_weaken s); [done | done | lia]. }
  unfold bind.
  match goal with
  | |- context [import H ?a ?b ?c s1] =>
      pose proof (import_preserves a b c s1 Hinv1) as Hi;
      destruct (import H a b c s1) as [[i|e] s2]
  end; done.
Qed.

Lemma delete_preserves id s :
  registry_invariant s -> registry_invariant (snd (delete_method H id s)).
Proof.
  intros Hinv.
  unfold delete_method, bind, db_remove_awaited, db_remove, modify, throw.
  destruct (remove_rejects H id); simpl; [done|].
  eapply (invariant_delete s); [done | reflexivity | simpl; lia].
Qed.

Lemma load_record_preserves r s :
  registry_invariant s -> registry_invariant (snd (load_record H r s)).
Proof.
  intros Hinv. unfold load_record, importJSCode.
  match goal with
  | |- context [import H ?a ?b ?c s] =>
      pose proof (import_preserves a b c s Hinv) as Hi;
      destruct (import H a b c s) as [[i|e] s1]
  end; simpl in *.
  - apply (invariant_weaken s1); [done | done | simpl; lia].
  - apply (invariant_weaken s1); [done | done | simpl; lia].
Qed.

Lemma forEach_preserves {A} (P : State -> Prop) (f : A -> M unit) l s :
  (forall a s, P s -> P (snd (f a s))) ->
  P s -> P (snd (forEach f l s)).
Proof.
  intros Hf. revert s. induction l as [|a l IH]; intros s Hs; [done|].
  simpl. unfold bind. pose proof (Hf a s Hs) as Ha.
  destruct (f a s) as [[[]|e] s1]; simpl in *; [by apply IH | done].
Qed.

Lemma importPool_preserves s :
  registry_invariant s -> registry_invariant (snd (importPool H s)).
Proof.
  intros Hinv. unfold importPool. rewrite try_catch_run.
  unfold bind, gets. simpl.
  apply forEach_preserves; [|done].
  intros arr s1 Hs1. apply forEach_preserves; [|done].
  intros r s2. apply load_record_preserves.
Qed.

Lemma after_preserves c s :
  registry_invariant s -> registry_invariant (after H c s).
Proof.
  destruct c; simpl.
  - apply import_preserves.
  - apply enable_preserves.
  - apply disable_preserves.
  - apply delete_preserves.
  - apply importPool_preserves.
Qed.

Lemma reachable_invariant s : reachable H s -> registry_invariant s.
Proof.
  induction 1 as [db|c s _ IH].
  - intros id e He. simpl in He. by rewrite lookup_empty in He.
  - by apply after_preserves.
Qed.

(** C9. A call of [import], [enable], [disable], [delete] (or
    [importPool]) keeps the invariant of the registry: an entry whose flag
    is [false] has no instance, and an entry that has an instance has its
    flag [true] and holds an instance that was constructed. *)
Theorem calls_keep_invariant (c : Call) (s : State) :
  registry_invariant s ->
  registry_invariant (after H c s).
Proof. apply after_preserves. Qed.

Lemma omap_filter_nil {A B} (f : A -> option B) (P : A -> bool) (l : list A) :
  (forall a, a ∈ l -> P a = true -> f a = None) ->
  omap f (List.filter P l) = [].
Proof.
  induction l as [|a l IH]; intros Hl; [done|]. simpl.
  destruct (P a) eqn:Ha; simpl.
  - rewrite (Hl a (list_elem_of_here _ _) Ha). apply IH.
    intros b Hb. apply Hl. by apply list_elem_of_further.
  - apply IH. intros b Hb. apply Hl. by apply list_elem_of_further.
Qed.

Lemma elem_of_filter_bool {A} (P : A -> bool) (l : list A) a :
  a ∈ List.filter P l -> a ∈ l.
Proof.
  rewrite !list_elem_of_In. intros Hin.
  by apply List.filter_In in Hin as [? _].
Qed.

(** C10. In every state the class can reach, for every type and every
    group, [getPluginsByType] with [enable: false] in the filter answers
    the empty list: the entries it keeps have the flag [false], so they
    have no instance, and the last filter drops them. *)
Theorem disabled_filter_empty (s : State) (type : PluginType)
  (group : Field JSString) :
  reachable H s ->
  getPluginsByType type
    (Some {| filter_enable := Given false; filter_group := group |}) s = [].
Proof.
  intros Hr. apply reachable_invariant in Hr.
  unfold getPluginsByType. simpl. apply omap_filter_nil.
  intros e He Hen. apply elem_of_filter_bool in He.
  apply list_elem_of_fmap in He as ([id e'] & -> & He).
  apply elem_of_map_to_list in He. simpl in *.
  destruct (Hr id e' He) as [Hnone _].
  destruct (entry_enable e') eqn:Hflag; [done|].
  by rewrite Hnone.
Qed.

(** *** The bulk loader *)

Lemma forEach_app {A} (f : A -> M unit) l1 l2 s :
  forEach f (l1 ++ l2) s = (forEach f l1 ;; forEach f l2) s.
Proof.
  revert s. induction l1 as [|a l1 IH]; intros s; [done|].
  simpl. unfold bind in *. destruct (f a s) as [[[]|e] s1]; [apply IH | done].
Qed.

Lemma forEach_concat {A} (f : A -> M unit) (g : list A -> list A) ls s :
  forEach (fun arr => forEach f (g arr)) ls s = forEach f (concat (g <$> ls)) s.
Proof.
  revert s. induction ls as [|l ls IH]; intros s; [done|].
  simpl. rewrite forEach_app. unfold bind.
  destruct (forEach f (g l) s) as [[[]|e] s1]; [apply IH | done].
Qed.

Lemma concat_settle {A} (g : list A -> list A) ls :
  (forall arr, g arr ≡ₚ arr) -> concat (g <$> ls) ≡ₚ concat ls.
Proof.
  intros Hg. induction ls as [|l ls IH]; [done|].
  simpl. by rewrite Hg, IH.
Qed.

Lemma concat_chunkArray_from {A} fuel (l : list A) size :
  1 <= size -> length l <= fuel ->
  concat (chunkArray_from fuel l size) = l.
Proof.
  intros Hs. revert l. induction fuel as [|fuel IH]; intros l Hl.
  - destruct l; [done | simpl in Hl; lia].
  - destruct l as [|a l]; [done|].
    change (concat (chunkArray_from (S fuel) (a :: l) size))
      with (take size (a :: l)
              ++ concat (chunkArray_from fuel (drop size (a :: l)) size)).
    rewrite IH; [apply take_drop|].
    rewrite length_drop. simpl in *. lia.
Qed.

Lemma concat_chunkArray {A} (l : list A) size :
  1 <= size -> concat (chunkArray l size) = l.
Proof. intros Hs. by apply concat_chunkArray_from. Qed.

(** [importJSCode] with the options of [importPool], stage by stage: the
    static pass and the duplicate test are off. *)
Lemma import_pool_options r s :
  importJSCode H (jscode r) (pool_options r) s =
  let s1 := set_executed (fun l => l ++ [jscode r]) s in
  match exported H (jscode r) with
  | Err e => (Err e, s1)
  | Ok plugin =>
      match _isPlugin plugin with
      | Err e => (Err e, s1)
      | Ok _ =>
          let id := key (ID (statics plugin)) in
          let s2 := set_pluginsStore (fun m => {[id]} ∪ m) s1 in
          match constructor_throws plugin with
          | Some e => (Err e, s2)
          | None =>
              let s3 := set_constructed S s2 in
              let code := persisted (pool_options r) (jscode r) in
              match put_rejects H id code with
              | Some e => (Err e, s3)
              | None =>
                  (Ok (constructed s),
                   set_pluginsPool
                     (insert id (entry_of (pool_options r) plugin (constructed s)))
                     (set_pluginsJSCode (insert id code) s3))
              end
          end
      end
  end.
Proof.
  unfold importJSCode. rewrite import_run. simpl. rewrite check_run. simpl.
  destruct (exported H (jscode r)) as [plugin|e]; [|done].
  destruct (_isPlugin plugin) as [[]|e]; [|done]. simpl.
  destruct (constructor_throws plugin); [done|]. simpl.
  by destruct (put_rejects H _ _).
Qed.

(** One record of the bulk load: it never throws, it appends the outcome
    the record has on its own, and it writes the database under the
    declared [ID] on success and removes the record on failure. *)
Lemma load_record_run r s :
  exists s',
    load_record H r s = (Ok tt, s')
    /\ loadStats s' = loadStats s ++ [outcome H r]
    /\ match alone H (snd r) with
       | Ok _ =>
           exists plugin,
             exported H (jscode (snd r)) = Ok plugin
             /\ pluginsJSCode s'
                = <[key (ID (statics plugin))
                    := persisted (pool_options (snd r)) (jscode (snd r))]>
                    (pluginsJSCode s)
       | Err _ => pluginsJSCode s' = delete (fst r) (pluginsJSCode s)
       end.
Proof.
  unfold load_record, outcome, alone.
  change (Some {| Options.force := Some true; Options.minify := Some false;
                  Options.debug := None;
                  Options.enable := Some (code_enable (snd r)) |})
    with (pool_options (snd r)).
  rewrite !import_pool_options. simpl.
  destruct (exported H (jscode (snd r))) as [plugin|e]; simpl.
  2: { eexists. split; [reflexivity|]. by split. }
  destruct (_isPlugin plugin) as [[]|e]; simpl.
  2: { eexists. split; [reflexivity|]. by split. }
  destruct (constructor_throws plugin); simpl.
  { eexists. split; [reflexivity|]. by split. }
  destruct (put_rejects H _ _); simpl.
  { eexists. split; [reflexivity|]. by split. }
  eexists. split; [reflexivity|]. split; [done|]. by exists plugin.
Qed.







End RegistryFacts.

Section RegistryExamples.
Import JS Schema Registry Examples.

Lemma import_fails_closed_witness :
  fails_at host enabling registered_state None (Some demo_script)
    "Plugin exists ID:abcdefghij123456"
  /\ exists s',
       import host None (Some demo_script) enabling registered_state
       = (Err "Plugin exists ID:abcdefghij123456", s')
       /\ pluginsPool s' = pluginsPool registered_state
       /\ pluginsJSCode s' = pluginsJSCode registered_state.
Proof.
  assert (Hf : fails_at host enabling registered_state None (Some demo_script)
                 "Plugin exists ID:abcdefghij123456").
  { apply (fails_duplicate host enabling registered_state None
             (Some demo_script) demo_script demo_script demo_plugin);
      reflexivity. }
  split; [exact Hf|].
  exact (import_fails_closed host enabling registered_state None
           (Some demo_script) _ Hf).
Defined.

Lemma import_put_rejected_witness :
  exists s',
    import host_without_database None (Some demo_script) enabling initial
    = (Err "QuotaExceededError", s')
    /\ pluginsPool s' = pluginsPool initial
    /\ pluginsJSCode s' = pluginsJSCode initial.
Proof.
  apply (import_put_rejected host_without_database enabling initial None
           (Some demo_script) demo_script demo_script demo_plugin);
    reflexivity.
Defined.

(** C2, as stated, fails: with a database that rejects the [put] of
    step 7, every earlier stage passes, and [import] throws; no instance
    is returned and the registry has no entry for the plugin. *)
Lemma import_put_rejected_counterexample :
  check host_without_database demo_script enabling initial
  = (Ok (demo_plugin, demo_script),
     set_executed (fun l => l ++ [demo_script]) initial)
  /\ put_rejects host_without_database demo_id (persisted enabling demo_script)
     = Some (js "QuotaExceededError")
  /\ fst (importJSCode host_without_database demo_script enabling initial)
     = Err "QuotaExceededError"
  /\ pluginsPool (snd (importJSCode host_without_database demo_script
                         enabling initial)) !! demo_id = None.
Proof. repeat split; reflexivity. Qed.

(** C6. The claim: every script handed to the import pipeline that has
    a module-import construct is refused before it is run. The source
    runs the static pass under [!options || options.minify]: it runs for
    a call without options and for [minify: true], and it is skipped not
    only for [minify: false] but for every options object that leaves
    [minify] out. With such options, whatever the host, the file or the
    text, the script is handed to the interpreter as it is: its tree is
    not looked at. Here the script whose tree starts with the token
    [import] is refused, with its line, when imported without options;
    imported with [{ enable: true }] it is run, its plugin is registered
    and enabled, and the script is persisted. *)
Theorem import_construct_executed :
  (forall (H : Host) (o : PluginImportOptions) (path code : option JSString)
          (text : JSString) (s : State),
     Options.minify o = None ->
     resolve_source H path code = Ok text ->
     executed (snd (import H path code (Some o) s)) = executed s ++ [text])
  /\ parse host importing_script = Ok importing_ast
  /\ is_import importing_ast = true
  /\ importJSCode host importing_script None initial
     = (Err "Cannot import modules, in the 1 line", initial)
  /\ runs_static_check enabling_only = false
  /\ fst (importJSCode host importing_script enabling_only initial) = Ok 0
  /\ executed (snd (importJSCode host importing_script enabling_only initial))
     = [importing_script]
  /\ getPluginById demo_id
       (snd (importJSCode host importing_script enabling_only initial))
     = Some (statics demo_plugin, Some 0)
  /\ pluginsJSCode
       (snd (importJSCode host importing_script enabling_only initial))
       !! demo_id
     = Some {| jscode := importing_script; code_enable := true |}.
Proof.
  split; [|repeat split; vm_compute; reflexivity].
  intros H o path code text s Hm Hr.
  rewrite import_run, Hr, check_run. unfold rewritten. simpl. rewrite Hm.
  simpl. destruct (exported H text) as [plugin|e]; [|done].
  destruct (_isPlugin plugin) as [[]|e]; [|done].
  destruct (duplicate (Some o) s plugin); [done|]. simpl.
  destruct (constructor_throws plugin); [done|].
  destruct (opt Options.debug (Some o)); [done|].
  by destruct (put_rejects H _ _).
Qed.

Lemma calls_keep_invariant_witness :
  registry_invariant registered_state
  /\ registry_invariant (after host (call_disable demo_id) registered_state)
  /\ registry_invariant (after host (call_enable demo_id) disabled_state)
  /\ registry_invariant (after host (call_delete demo_id) registered_state).
Proof.
  assert (H1 : registry_invariant registered_state).
  { apply registry_invariantb_spec. reflexivity. }
  assert (H2 : registry_invariant disabled_state).
  { apply registry_invariantb_spec. reflexivity. }
  split; [exact H1|]. split; [|split].
  - exact (calls_keep_invariant host (call_disable demo_id) registered_state H1).
  - exact (calls_keep_invariant host (call_enable demo_id) disabled_state H2).
  - exact (calls_keep_invariant host (call_delete demo_id) registered_state H1).
Defined.

Lemma disabled_filter_empty_witness :
  reachable host disabled_state
  /\ pluginsPool disabled_state !! demo_id
     = Some {| entry_enable := false;
               props := statics demo_plugin;
               instance := None |}
  /\ getPluginsByType BOOK_SOURCE
       (Some {| filter_enable := Given false; filter_group := Absent |})
       disabled_state = [].
Proof.
  assert (Hr : reachable host disabled_state).
  { apply reachable_after, reachable_after, reachable_start. }
  split; [exact Hr|]. split; [reflexivity|].
  exact (disabled_filter_empty host disabled_state BOOK_SOURCE Absent Hr).
Defined.


End RegistryExamples.

(** * Further properties of the code *)

(** ** Strings and the schema validator *)

Section SchemaMore.
Import JS Schema Examples.

Lemma trimStart_fixed s : startsWithWhiteSpace s = false -> trimStart s = s.
Proof.
  destruct s as [|c r]; [done|]. unfold startsWithWhiteSpace. simpl.
  by intros ->.
Qed.

Lemma trimStart_length s : length (trimStart s) <= length s.
Proof.
  induction s as [|c r IH]; simpl; [done|].
  destruct (isWhiteSpace c); simpl; lia.
Qed.

Lemma trimStart_shorter s :
  startsWithWhiteSpace s = true -> length (trimStart s) < length s.
Proof.
  destruct s as [|c r]; [done|]. unfold startsWithWhiteSpace. simpl.
  intros ->. pose proof (trimStart_length r). lia.
Qed.

Lemma trimEnd_length s : length (trimEnd s) <= length s.
Proof.
  induction s as [|c r IH]; simpl; [done|].
  destruct (trimEnd r) as [|c' r']; simpl in *.
  - destruct (isWhiteSpace c); simpl; lia.
  - lia.
Qed.

Lemma endsWithWhiteSpace_cons c c' r :
  endsWithWhiteSpace (c :: c' :: r) = endsWithWhiteSpace (c' :: r).
Proof. reflexivity. Qed.

Lemma trimEnd_cons c r :
  trimEnd (c :: r)
  = match trimEnd r with
    | [] => if isWhiteSpace c then [] else [c]
    | r' => c :: r'
    end.
Proof. reflexivity. Qed.

Lemma trimEnd_ends s : endsWithWhiteSpace (trimEnd s) = false.
Proof.
  induction s as [|c r IH]; [done|]. rewrite trimEnd_cons.
  destruct (trimEnd r) as [|c' r'] eqn:Hr.
  - destruct (isWhiteSpace c) eqn:Hc; [done|].
    unfold endsWithWhiteSpace. simpl. exact Hc.
  - by rewrite endsWithWhiteSpace_cons.
Qed.

Lemma trimEnd_fixed s : endsWithWhiteSpace s = false -> trimEnd s = s.
Proof.
  induction s as [|c r IH]; [done|].
  destruct r as [|c' r'].
  - unfold endsWithWhiteSpace. simpl. by intros ->.
  - rewrite endsWithWhiteSpace_cons. intros Hr.
    rewrite trimEnd_cons, (IH Hr). done.
Qed.

(** [trim] leaves a string as it is exactly when the string neither
    starts nor ends with white space. *)
Lemma trim_fixed_iff s :
  trim s = s <->
  startsWithWhiteSpace s = false /\ endsWithWhiteSpace s = false.
Proof.
  unfold trim. split.
  - intros Ht.
    destruct (startsWithWhiteSpace s) eqn:Hs.
    { apply trimStart_shorter in Hs.
      pose proof (trimEnd_length (trimStart s)) as Hl.
      rewrite Ht in Hl. lia. }
    split; [done|]. rewrite trimStart_fixed in Ht by done.
    rewrite <- Ht. apply trimEnd_ends.
  - intros [Hs He]. rewrite trimStart_fixed by done. by apply trimEnd_fixed.
Qed.

Lemma trimEnd_nil s : trimEnd s = [] <-> blank s = true.
Proof.
  unfold blank. induction s as [|c r IH]; [done|].
  rewrite trimEnd_cons. simpl. rewrite andb_true_iff, <- IH.
  destruct (trimEnd r) as [|c' r'].
  - destruct (isWhiteSpace c); split; try done. by intros [? _].
  - split; [done|]. by intros [_ ?].
Qed.

Lemma trimStart_blank s : blank (trimStart s) = blank s.
Proof.
  unfold blank. induction s as [|c r IH]; [done|]. simpl.
  destruct (isWhiteSpace c) eqn:Hc; [done|]. simpl. by rewrite Hc.
Qed.

(** [trim] empties a string exactly when the string is white space
    throughout. *)
Lemma trim_nil_iff s : trim s = [] <-> blank s = true.
Proof. unfold trim. by rewrite trimEnd_nil, trimStart_blank. Qed.

Lemma truthy_trim s : truthy_string (trim s) = negb (blank s).
Proof.
  destruct (blank s) eqn:Hb.
  - apply trim_nil_iff in Hb. by rewrite Hb.
  - destruct (trim s) eqn:Ht; [|done].
    apply trim_nil_iff in Ht. congruence.
Qed.

Lemma test_id_class_iff s :
  test_id_class s = true <-> exists c, c ∈ s /\ isIdChar c = true.
Proof.
  unfold test_id_class. rewrite existsb_exists.
  split; intros (c & Hc & Hi); exists c; split; try done;
    by apply list_elem_of_In.
Qed.

Lemma check_ID_iff v :
  check_ID v = Ok tt <->
  exists s, v = Str s
            /\ (exists c, c ∈ s /\ isIdChar c = true)
            /\ startsWithWhiteSpace s = false /\ endsWithWhiteSpace s = false
            /\ 16 <= length s <= 32.
Proof.
  split.
  - destruct v as [| | | |s| |]; try discriminate.
    unfold check_ID. simpl.
    destruct (test_id_class s) eqn:Hc; [|discriminate].
    case_bool_decide as Ht; [|discriminate]. simpl.
    destruct (length s <? 16) eqn:H1; [discriminate|].
    destruct (32 <? length s) eqn:H2; [discriminate|].
    intros _. exists s. apply test_id_class_iff in Hc.
    apply trim_fixed_iff in Ht as [Hs He].
    apply Nat.ltb_ge in H1, H2. repeat split; done.
  - intros (s & -> & Hc & Hs & He & H1 & H2). unfold check_ID. simpl.
    apply test_id_class_iff in Hc. rewrite Hc.
    rewrite bool_decide_eq_true_2 by (by apply trim_fixed_iff). simpl.
    apply Nat.ltb_ge in H1, H2. by rewrite H1, H2.
Qed.

Lemma check_TYPE_iff v :
  check_TYPE v = Ok tt <-> v = Num (Int 0) \/ v = Num (Int 1).
Proof.
  split.
  - destruct v as [| | |[[|[]|]|]| | |]; try discriminate; auto.
  - by intros [-> | ->].
Qed.

Lemma check_text_iff field shown lo hi v :
  check_text field shown lo hi v = Ok tt <->
  exists s, v = Str s
            /\ startsWithWhiteSpace s = false /\ endsWithWhiteSpace s = false
            /\ lo <= length s <= hi.
Proof.
  split.
  - destruct v as [| | | |s| |]; try discriminate.
    unfold check_text. simpl.
    case_bool_decide as Ht; [|discriminate]. simpl.
    destruct (length s <? lo) eqn:H1; [discriminate|].
    destruct (hi <? length s) eqn:H2; [discriminate|].
    intros _. exists s. apply trim_fixed_iff in Ht as [Hs He].
    apply Nat.ltb_ge in H1, H2. repeat split; done.
  - intros (s & -> & Hs & He & H1 & H2). unfold check_text. simpl.
    rewrite bool_decide_eq_true_2 by (by apply trim_fixed_iff). simpl.
    apply Nat.ltb_ge in H1, H2. by rewrite H1, H2.
Qed.

Lemma check_VERSION_CODE_iff v :
  check_VERSION_CODE v = Ok tt <-> exists n, v = Num n.
Proof.
  split.
  - destruct v; try discriminate. eauto.
  - by intros [n ->].
Qed.

Lemma check_PLUGIN_FILE_URL_iff v :
  check_PLUGIN_FILE_URL v = Ok tt <->
  exists s, v = Str s /\ (blank s = true \/ test_plugin_file_url s = true).
Proof.
  split.
  - destruct v as [| | | |s| |]; try discriminate.
    unfold check_PLUGIN_FILE_URL. simpl. rewrite truthy_trim.
    destruct (blank s) eqn:Hb; simpl.
    + intros _. exists s. auto.
    + destruct (test_plugin_file_url s) eqn:Hu; [|discriminate].
      intros _. exists s. auto.
  - intros (s & -> & [Hb|Hu]); unfold check_PLUGIN_FILE_URL; simpl;
      rewrite truthy_trim.
    + by rewrite Hb.
    + rewrite Hu. simpl. by rewrite andb_false_r.
Qed.

Lemma check_BASE_URL_iff v :
  check_BASE_URL v = Ok tt <->
  exists s, v = Str s /\ blank s = false /\ test_base_url s = true.
Proof.
  split.
  - destruct v as [| | | |s| |]; try discriminate.
    unfold check_BASE_URL. simpl. rewrite truthy_trim.
    destruct (blank s) eqn:Hb; simpl; [discriminate|].
    destruct (test_base_url s) eqn:Hu; [|discriminate].
    intros _. exists s. auto.
  - intros (s & -> & Hb & Hu). unfold check_BASE_URL. simpl.
    rewrite truthy_trim, Hb. simpl. by rewrite Hu.
Qed.

Lemma method_check_iff name v :
  method_check name v = Ok tt <-> v = Function.
Proof. split; [by destruct v | by intros ->]. Qed.

Lemma _isBookSource_iff p :
  _isBookSource p = Ok tt <->
  exists proto,
    prototype p = Some proto
    /\ search proto = Function /\ getDetail proto = Function
    /\ getTextContent proto = Function.
Proof.
  unfold _isBookSource. split.
  - destruct (prototype p) as [proto|]; [|discriminate]. intros Hm.
    apply rbind_Ok in Hm as ([] & H1 & Hm).
    apply rbind_Ok in Hm as ([] & H2 & H3).
    apply method_check_iff in H1, H2, H3. eauto.
  - intros (proto & -> & H1 & H2 & H3). by rewrite H1, H2, H3.
Qed.

Lemma rbind_Ok_iff {A B} (r : Result A) (k : A -> Result B) b :
  rbind r k = Ok b <-> exists a, r = Ok a /\ k a = Ok b.
Proof.
  split; [apply rbind_Ok|]. by intros (a & -> & Hk).
Qed.

Lemma check_statics_iff p :
  check_statics p = Ok tt <->
  check_ID (ID p) = Ok tt
  /\ check_TYPE (TYPE p) = Ok tt
  /\ check_text "GROUP" "[2,15]" 1 15 (GROUP p) = Ok tt
  /\ check_text "NAME" "[2,15]" 1 15 (NAME p) = Ok tt
  /\ check_text "VERSION" "[1,8]" 0 8 (VERSION p) = Ok tt
  /\ check_VERSION_CODE (VERSION_CODE p) = Ok tt
  /\ check_PLUGIN_FILE_URL (PLUGIN_FILE_URL p) = Ok tt
  /\ check_BASE_URL (BASE_URL p) = Ok tt.
Proof.
  unfold check_statics. split.
  - intros Hc.
    do 7 (apply rbind_Ok in Hc as ([] & ? & Hc)). repeat split; assumption.
  - intros (H1 & H2 & H3 & H4 & H5 & H6 & H7 & H8).
    by rewrite H1, H2, H3, H4, H5, H6, H7, H8.
Qed.

(** *** The two patterns for addresses *)

Lemma lower_app s t : lower (s ++ t) = lower s ++ lower t.
Proof. apply fmap_app. Qed.

Lemma eqb_ci_eq a b : eqb_ci a b = true <-> toLower a = toLower b.
Proof. unfold eqb_ci. apply N.eqb_eq. Qed.

Lemma prefix_ci_Some p s r :
  prefix_ci p s = Some r -> exists pre, s = pre ++ r /\ lower pre = lower p.
Proof.
  revert s. induction p as [|a p IH]; intros s; simpl.
  - intros [= ->]. by exists [].
  - destruct s as [|b s]; [done|].
    destruct (eqb_ci a b) eqn:Hab; [|done]. intros Hp.
    apply IH in Hp as (pre & -> & Hl). apply eqb_ci_eq in Hab.
    exists (b :: pre). split; [done|]. unfold lower in *.
    by rewrite !fmap_cons, Hl, Hab.
Qed.

Lemma prefix_ci_intro p pre r :
  lower pre = lower p -> prefix_ci p (pre ++ r) = Some r.
Proof.
  revert pre. induction p as [|a p IH]; intros [|b pre]; try done.
  unfold lower. rewrite !fmap_cons. intros [= Hab Hl].
  assert (Hc : eqb_ci a b = true) by by apply eqb_ci_eq.
  simpl. rewrite Hc. by apply IH.
Qed.

Lemma prefix_ci_None a p b s :
  toLower a <> toLower b -> prefix_ci (a :: p) (b :: s) = None.
Proof.
  intros Hne. simpl. destruct (eqb_ci a b) eqn:Hab; [|done].
  by apply eqb_ci_eq in Hab.
Qed.

(** [^https?:\/\/]: the part of the input it leaves is what follows a
    prefix that is [http://] or [https://] up to the case of letters. *)
Lemma match_scheme_iff s r :
  match_scheme s = Some r <->
  exists pre, s = pre ++ r
              /\ (lower pre = "http://" \/ lower pre = "https://").
Proof.
  unfold match_scheme. split.
  - destruct (prefix_ci "http" s) as [r1|] eqn:H1; [|done].
    apply prefix_ci_Some in H1 as (p1 & -> & Hl1).
    destruct (prefix_ci "s://" r1) as [r2|] eqn:H2.
    + intros [= ->]. apply prefix_ci_Some in H2 as (p2 & -> & Hl2).
      exists (p1 ++ p2). rewrite <- app_assoc. split; [done|]. right.
      by rewrite lower_app, Hl1, Hl2.
    + intros H3. apply prefix_ci_Some in H3 as (p2 & -> & Hl2).
      exists (p1 ++ p2). rewrite <- app_assoc. split; [done|]. left.
      by rewrite lower_app, Hl1, Hl2.
  - intros (pre & -> & [Hl|Hl]).
    + assert (Hpre : pre = take 4 pre ++ drop 4 pre)
        by (by rewrite take_drop).
      assert (H1 : lower (take 4 pre) = lower "http").
      { unfold lower in *. by rewrite fmap_take, Hl. }
      assert (H2 : lower (drop 4 pre) = lower "://").
      { unfold lower in *. by rewrite fmap_drop, Hl. }
      rewrite Hpre, <- app_assoc, (prefix_ci_intro _ _ _ H1).
      destruct (drop 4 pre) as [|b q]; [by vm_compute in H2|].
      assert (Hb : toLower b = 58%N).
      { unfold lower in H2. rewrite fmap_cons in H2. by injection H2. }
      change (js "s://") with (115%N :: js "://").
      rewrite <- app_comm_cons, prefix_ci_None by (by rewrite Hb).
      rewrite app_comm_cons. by apply prefix_ci_intro.
    + assert (Hpre : pre = take 4 pre ++ drop 4 pre)
        by (by rewrite take_drop).
      assert (H1 : lower (take 4 pre) = lower "http").
      { unfold lower in *. by rewrite fmap_take, Hl. }
      assert (H2 : lower (drop 4 pre) = lower "s://").
      { unfold lower in *. by rewrite fmap_drop, Hl. }
      rewrite Hpre, <- app_assoc, (prefix_ci_intro _ _ _ H1).
      by rewrite (prefix_ci_intro _ _ _ H2).
Qed.

Lemma match_dot_js_cons c r :
  match_dot_js (c :: r)
  = match prefix_ci ".js" (c :: r) with
    | Some [] => true
    | _ => negb (isLineTerminator c) && match_dot_js r
    end.
Proof. reflexivity. Qed.

Lemma match_dot_js_iff r :
  match_dot_js r = true <->
  exists mid suffix,
    r = mid ++ suffix
    /\ forallb (fun c => negb (isLineTerminator c)) mid = true
    /\ lower suffix = ".js".
Proof.
  split.
  - induction r as [|c r IH]; [done|]. rewrite match_dot_js_cons.
    assert (Hrest : negb (isLineTerminator c) && match_dot_js r = true ->
              exists mid suffix,
                c :: r = mid ++ suffix
                /\ forallb (fun c => negb (isLineTerminator c)) mid = true
                /\ lower suffix = ".js").
    { intros [Hc Hm]%andb_true_iff.
      destruct (IH Hm) as (mid & suffix & -> & Hmid & Hs).
      exists (c :: mid), suffix. simpl. by rewrite Hc, Hmid. }
    destruct (prefix_ci ".js" (c :: r)) as [[|? ?]|] eqn:Hp; try done.
    intros _. apply prefix_ci_Some in Hp as (pre & Hr & Hl).
    rewrite app_nil_r in Hr. exists [], pre. by rewrite Hr.
  - intros (mid & suffix & -> & Hmid & Hs).
    induction mid as [|c mid IH].
    + simpl. destruct suffix as [|c suffix]; [done|].
      rewrite match_dot_js_cons.
      rewrite <- (app_nil_r (c :: suffix)) at 1.
      by rewrite (prefix_ci_intro ".js" (c :: suffix) [] Hs).
    + simpl in Hmid. apply andb_true_iff in Hmid as [Hc Hmid].
      rewrite <- app_comm_cons, match_dot_js_cons.
      rewrite (IH Hmid), Hc.
      by destruct (prefix_ci ".js" (c :: mid ++ suffix)) as [[|? ?]|].
Qed.

Lemma test_base_url_iff s :
  test_base_url s = true <->
  exists pre rest,
    s = pre ++ rest /\ (lower pre = "http://" \/ lower pre = "https://").
Proof.
  unfold test_base_url. split.
  - destruct (match_scheme s) as [r|] eqn:Hm; [|done]. intros _.
    apply match_scheme_iff in Hm as (pre & -> & Hl). eauto.
  - intros (pre & rest & Hs & Hl).
    assert (Hm : match_scheme s = Some rest)
      by (apply match_scheme_iff; eauto).
    by rewrite Hm.
Qed.

Lemma test_plugin_file_url_iff s :
  test_plugin_file_url s = true <->
  exists pre mid suffix,
    s = pre ++ mid ++ suffix
    /\ (lower pre = "http://" \/ lower pre = "https://")
    /\ forallb (fun c => negb (isLineTerminator c)) mid = true
    /\ lower suffix = ".js".
Proof.
  unfold test_plugin_file_url. split.
  - destruct (match_scheme s) as [r|] eqn:Hm; [|done]. intros Hj.
    apply match_scheme_iff in Hm as (pre & -> & Hl).
    apply match_dot_js_iff in Hj as (mid & suffix & -> & Hmid & Hs).
    exists pre, mid, suffix. auto.
  - intros (pre & mid & suffix & Hs & Hl & Hmid & Hsuf).
    assert (Hm : match_scheme s = Some (mid ++ suffix))
      by (apply match_scheme_iff; eauto).
    rewrite Hm. apply match_dot_js_iff. eauto.
Qed.

(** The two tests on addresses say what their patterns say. [BASE_URL]
    passes [/^https?:\/\/.*?/i] exactly when it starts with [http://] or
    [https://], in any case of letters. [PLUGIN_FILE_URL] passes
    [/^https?:\/\/.*?\.js$/i] exactly when it is such a prefix, then
    code units none of which is a line terminator (LF, CR, U+2028,
    U+2029), then [.js] in any case of letters. *)
Theorem address_patterns (s : JSString) :
  (test_base_url s = true <->
   exists pre rest,
     s = pre ++ rest /\ (lower pre = "http://" \/ lower pre = "https://"))
  /\ (test_plugin_file_url s = true <->
      exists pre mid suffix,
        s = pre ++ mid ++ suffix
        /\ (lower pre = "http://" \/ lower pre = "https://")
        /\ forallb (fun c => negb (isLineTerminator c)) mid = true
        /\ lower suffix = ".js").
Proof. split; [apply test_base_url_iff | apply test_plugin_file_url_iff]. Qed.

Lemma address_patterns_witness :
  test_plugin_file_url "HTTPS://example.com/plugin.JS" = true
  /\ test_plugin_file_url ("http://a" ++ [8232%N] ++ ".js") = false
  /\ test_plugin_file_url "http://example.com/plugin.json" = false
  /\ test_base_url "Http://" = true
  /\ test_base_url " http://example.com" = false.
Proof.
  pose proof (address_patterns "HTTPS://example.com/plugin.JS") as [_ Hfile].
  pose proof (address_patterns "Http://") as [Hbase _].
  split; [|split; [|split; [|split]]].
  - apply Hfile. exists (js "HTTPS://"), (js "example.com/plugin"), (js ".JS").
    repeat split. by right.
  - reflexivity.
  - reflexivity.
  - apply Hbase. exists (js "Http://"), []. split; [reflexivity | by left].
  - reflexivity.
Defined.

(** *** What the validator accepts *)

Lemma _isPlugin_Ok_iff (p : PluginInterface) :
  _isPlugin p = Ok tt <->
  check_statics (statics p) = Ok tt
  /\ TYPE (statics p) = Num (Int (PluginType_code BOOK_SOURCE))
  /\ _isBookSource p = Ok tt.
Proof.
  unfold _isPlugin. rewrite rbind_Ok_iff. split.
  - intros ([] & Hs & Hd). split; [done|].
    pose proof Hs as Hs'. apply check_statics_iff in Hs' as (_ & H2 & _).
    apply check_TYPE_iff in H2. unfold dispatch_TYPE in Hd.
    destruct H2 as [H2|H2]; rewrite H2 in Hd; simpl in Hd; [|discriminate].
    done.
  - intros (Hs & Ht & Hb). exists tt. split; [done|].
    unfold dispatch_TYPE. by rewrite Ht.
Qed.

(** What the validator accepts, field by field, in terms of the strings
    themselves. In particular only a [BOOK_SOURCE] plugin is ever
    accepted, the [ID] needs one code unit of the class, not all, a
    [GROUP] or [NAME] of one code unit and an empty [VERSION] are
    accepted, and a [PLUGIN_FILE_URL] of white space is accepted. *)
Theorem _isPlugin_accepts_iff (p : PluginInterface) :
  _isPlugin p = Ok tt <->
  (exists id, ID (statics p) = Str id
     /\ (exists c, c ∈ id /\ isIdChar c = true)
     /\ startsWithWhiteSpace id = false /\ endsWithWhiteSpace id = false
     /\ 16 <= length id <= 32)
  /\ TYPE (statics p) = Num (Int (PluginType_code BOOK_SOURCE))
  /\ (exists g, GROUP (statics p) = Str g
        /\ startsWithWhiteSpace g = false /\ endsWithWhiteSpace g = false
        /\ 1 <= length g <= 15)
  /\ (exists n, NAME (statics p) = Str n
        /\ startsWithWhiteSpace n = false /\ endsWithWhiteSpace n = false
        /\ 1 <= length n <= 15)
  /\ (exists v, VERSION (statics p) = Str v
        /\ startsWithWhiteSpace v = false /\ endsWithWhiteSpace v = false
        /\ length v <= 8)
  /\ (exists c, VERSION_CODE (statics p) = Num c)
  /\ (exists u, PLUGIN_FILE_URL (statics p) = Str u
        /\ (blank u = true
            \/ exists pre mid suffix,
                 u = pre ++ mid ++ suffix
                 /\ (lower pre = "http://" \/ lower pre = "https://")
                 /\ forallb (fun c => negb (isLineTerminator c)) mid = true
                 /\ lower suffix = ".js"))
  /\ (exists b, BASE_URL (statics p) = Str b /\ blank b = false
        /\ exists pre rest,
             b = pre ++ rest
             /\ (lower pre = "http://" \/ lower pre = "https://"))
  /\ (exists proto, prototype p = Some proto
                    /\ search proto = Function /\ getDetail proto = Function
                    /\ getTextContent proto = Function).
Proof.
  rewrite _isPlugin_Ok_iff, check_statics_iff, check_ID_iff, !check_text_iff,
    check_VERSION_CODE_iff, check_PLUGIN_FILE_URL_iff, check_BASE_URL_iff,
    _isBookSource_iff.
  split.
  - intros ((H1 & _ & H3 & H4 & (v & Hv & Hvs & Hve & _ & Hvl) & H6
              & (u & Hu & Hurl) & (b & Hb & Hbn & Hbu)) & Ht & Hp).
    split; [done|]. split; [done|]. split; [done|]. split; [done|].
    split; [by exists v|]. split; [done|]. split; [|split; [|done]].
    + exists u. split; [done|]. destruct Hurl as [?|Hurl]; [by left|].
      right. by apply test_plugin_file_url_iff.
    + exists b. split; [done|]. split; [done|]. by apply test_base_url_iff.
  - intros (H1 & Ht & H3 & H4 & (v & Hv & Hvs & Hve & Hvl) & H6
              & (u & Hu & Hurl) & (b & Hb & Hbn & Hbu) & Hp).
    split; [|by split]. split; [done|]. split.
    { rewrite Ht. apply check_TYPE_iff. by left. }
    split; [done|]. split; [done|]. split.
    { exists v. repeat split; try done. lia. }
    split; [done|]. split.
    + exists u. split; [done|]. destruct Hurl as [?|Hurl]; [by left|].
      right. by apply test_plugin_file_url_iff.
    + exists b. split; [done|]. split; [done|]. by apply test_base_url_iff.
Qed.

(** An export with a name of six Chinese characters, an empty [VERSION]
    and addresses in capital letters is accepted. *)
Lemma _isPlugin_accepts_iff_witness : _isPlugin cjk_plugin = Ok tt.
Proof.
  apply _isPlugin_accepts_iff. split; [|split; [|split; [|split; [|split]]]].
  - exists demo_id. split; [reflexivity|]. split.
    + exists 97%N. split; [|reflexivity].
      vm_compute. apply list_elem_of_here.
    + repeat split; try reflexivity; vm_compute; lia.
  - reflexivity.
  - exists (js "news"). repeat split; try reflexivity; vm_compute; lia.
  - exists cjk_name. repeat split; try reflexivity; vm_compute; lia.
  - exists []. repeat split; try reflexivity; vm_compute; lia.
  - split; [by exists (Int 1)|]. split; [|split].
    + exists (js "HTTPS://example.com/plugin.JS"). split; [reflexivity|].
      right. exists (js "HTTPS://"), (js "example.com/plugin"), (js ".JS").
      repeat split. by right.
    + exists (js "http://example.com"). split; [reflexivity|].
      split; [reflexivity|]. exists (js "http://"), (js "example.com").
      split; [reflexivity | by left].
    + exists source_prototype. by repeat split.
Defined.

(** An [ID] that starts or ends with white space (any of the code units
    [trim] removes), or is shorter than 16 or longer than 32 code units,
    is never accepted, whatever the rest of the export is: the validator
    throws the error of the format, or that of the length when the format
    passes. *)
Theorem bad_ID_rejected (p : PluginInterface) (s : JSString) :
  ID (statics p) = Str s ->
  startsWithWhiteSpace s = true \/ endsWithWhiteSpace s = true
  \/ length s < 16 \/ 32 < length s ->
  exists e,
    _isPlugin p = Err e
    /\ isPlugin p = false
    /\ (e = "The ID format is not standard"
        \/ e = "Static property [ID] Length:" ++ pretty (length s)
                 ++ ", ID range in length [16,32]").
Proof.
  intros Hid Hbad.
  assert (Hc : exists e,
             check_ID (Str s) = Err e
             /\ (e = "The ID format is not standard"
                 \/ e = "Static property [ID] Length:" ++ pretty (length s)
                          ++ ", ID range in length [16,32]")).
  { unfold check_ID. simpl.
    destruct (negb (test_id_class s) || negb (bool_decide (trim s = s)))
      eqn:Hf; simpl.
    - eexists. split; [done | by left].
    - apply orb_false_elim in Hf as [_ Ht].
      apply negb_false_iff, bool_decide_eq_true, trim_fixed_iff in Ht
        as [Hs He].
      destruct Hbad as [Hb|[Hb|Hb]]; [congruence | congruence |].
      assert (Hl : (length s <? 16) || (32 <? length s) = true).
      { apply orb_true_iff.
        destruct Hb; [left | right]; by apply Nat.ltb_lt. }
      rewrite Hl. simpl. eexists. split; [done | by right]. }
  destruct Hc as (e & Hc & He). exists e.
  assert (Hp : _isPlugin p = Err e).
  { unfold _isPlugin, check_statics. by rewrite Hid, Hc. }
  split; [done|]. split; [|done]. unfold isPlugin. by rewrite Hp.
Qed.

(** An [ID] that starts with a space; one that ends with the ideographic
    space U+3000; one of 15 code units. *)
Lemma bad_ID_rejected_witness :
  isPlugin (plugin " abcdefghij12345" 0) = false
  /\ isPlugin (plugin ("abcdefghij12345" ++ [12288%N]) 0) = false
  /\ _isPlugin (plugin "abcdefghij12345" 0)
     = Err "Static property [ID] Length:15, ID range in length [16,32]".
Proof.
  destruct (bad_ID_rejected (plugin " abcdefghij12345" 0) " abcdefghij12345")
    as (e1 & _ & H1 & _); [reflexivity | left; reflexivity |].
  destruct (bad_ID_rejected (plugin ("abcdefghij12345" ++ [12288%N]) 0)
              ("abcdefghij12345" ++ [12288%N]))
    as (e2 & _ & H2 & _); [reflexivity | right; left; reflexivity |].
  destruct (bad_ID_rejected (plugin "abcdefghij12345" 0) "abcdefghij12345")
    as (e3 & H3 & _ & _);
    [reflexivity | right; right; left; vm_compute; lia |].
  split; [exact H1|]. split; [exact H2|]. reflexivity.
Defined.

(** For a [BOOK_SOURCE] export that has a prototype, the error names the
    first of [search], [getDetail], [getTextContent] that is not a
    function, and says whether it is missing or of another type. *)
Theorem _isBookSource_names_method (p : PluginInterface) (proto : Prototype) :
  prototype p = Some proto ->
  (search proto <> Function ->
     _isBookSource p
     = Err (if isUndefined (search proto)
            then "Function [search] not found"
            else "Property [search] is not of function type"))
  /\ (search proto = Function -> getDetail proto <> Function ->
     _isBookSource p
     = Err (if isUndefined (getDetail proto)
            then "Function [getDetail] not found"
            else "Property [getDetail] is not of function type"))
  /\ (search proto = Function -> getDetail proto = Function ->
      getTextContent proto <> Function ->
     _isBookSource p
     = Err (if isUndefined (getTextContent proto)
            then "Function [getTextContent] not found"
            else "Property [getTextContent] is not of function type")).
Proof.
  intros Hp. unfold _isBookSource. rewrite Hp. repeat split.
  - intros Hs. by destruct (search proto).
  - intros -> Hd. by destruct (getDetail proto).
  - intros -> -> Ht. by destruct (getTextContent proto).
Qed.

Lemma _isBookSource_names_method_witness :
  _isBookSource
    {| statics := descriptor demo_id 0;
       prototype := Some {| search := Function; getDetail := Undefined;
                            getTextContent := Str "text" |};
       constructor_throws := None |}
  = Err "Function [getDetail] not found".
Proof.
  pose proof (_isBookSource_names_method
    {| statics := descriptor demo_id 0;
       prototype := Some {| search := Function; getDetail := Undefined;
                            getTextContent := Str "text" |};
       constructor_throws := None |}
    {| search := Function; getDetail := Undefined;
       getTextContent := Str "text" |} eq_refl) as (_ & H2 & _).
  apply H2; [reflexivity | discriminate].
Defined.

(** [PluginType.valueOf] and the numbers of the enum are inverse to each
    other: the value of a member's number is that member, and only the
    numbers of the members have a value. *)
Lemma valueOf_round_trip :
  (forall t, valueOf (Int (PluginType_code t)) = Some t)
  /\ (forall n t, valueOf n = Some t -> n = Int (PluginType_code t)).
Proof.
  split; [by intros []|].
  intros [[|[]|]|] t; simpl; try discriminate; by intros [= <-].
Qed.

End SchemaMore.

(** ** The proxy handler, further *)

Section HandlerMore.
Import Sandbox.
Context (R : Realm).

Lemma get_found_not_window h p val v :
  get_found R h p val = Normal v -> v <> VRef 0 (window R).
Proof.
  unfold get_found, is_window. case_bool_decide as Hw; simpl; [done|].
  case_bool_decide.
  - destruct val; simpl; try done. by intros [= <-].
  - by intros [= <-].
Qed.

(** Whatever the target, the depth and the key, the [get] trap never
    answers the ambient global object itself. *)
Theorem get_never_window (h : Heap) (n : nat) (l : loc) (p : PropertyKey) :
  get R h n l p <> Normal (VRef 0 (window R)).
Proof.
  destruct n as [|n]; simpl; case_bool_decide; try done.
  - destruct (ordinary_has h l p); [|done].
    intros Hg. by apply get_found_not_window in Hg.
  - destruct (get R h n l p) as [val|e]; [|done].
    intros Hg. by apply get_found_not_window in Hg.
Qed.

Lemma get_found_bare h p val :
  val <> VRef 0 (window R) ->
  typeof h val <> t_object ->
  get_found R h p val = Normal val.
Proof.
  intros Hw Ht. unfold get_found, is_window.
  rewrite bool_decide_eq_false_2 by done. simpl.
  by rewrite bool_decide_eq_false_2.
Qed.

(** The other answers of the [get] trap, at every depth. A present key
    whose value is a function, or a primitive other than [null], is
    answered with that value as it is, not with a proxy; a present key
    whose value is [null] makes [new Proxy] raise a [TypeError]. *)
Theorem get_bare_or_TypeError (h : Heap) (n : nat) (l : loc) (p : PropertyKey) :
  p <> Symbol_unscopables ->
  (forall val,
     find_property h l p = Some val ->
     val <> VRef 0 (window R) ->
     typeof h val <> t_object ->
     get R h n l p = Normal val)
  /\ (find_property h l p = Some VNull ->
      exists msg, get R h n l p = Throw (TypeError msg)).
Proof.
  intros Hp. split.
  - intros val Hf Hw Ht. induction n as [|n IH]; simpl;
      rewrite bool_decide_eq_false_2 by done.
    + unfold ordinary_has, ordinary_get. rewrite Hf.
      rewrite bool_decide_eq_true_2 by eauto. simpl.
      by apply get_found_bare.
    + rewrite IH. by apply get_found_bare.
  - intros Hf. induction n as [|n IH]; simpl;
      rewrite bool_decide_eq_false_2 by done.
    + unfold ordinary_has, ordinary_get. rewrite Hf.
      rewrite bool_decide_eq_true_2 by eauto. simpl.
      unfold get_found, is_window. rewrite bool_decide_eq_false_2 by done.
      simpl. eauto.
    + destruct IH as [msg ->]. eauto.
Qed.

Lemma own_property_Reflect_set h l p v l0 q :
  (l0, q) <> (l, p) ->
  own_property (Reflect_set h l p v) l0 q = own_property h l0 q.
Proof.
  intros Hne. unfold own_property, Reflect_set. rewrite lookup_alter.
  case_decide as Hl; [subst l0|done].
  destruct (h !! l) as [o|]; simpl; [|done].
  rewrite lookup_insert_ne; [done|]. intros ->. by apply Hne.
Qed.

Lemma set_Normal_inv h n l p v h' :
  set R h n l p v = Normal h' ->
  n = 0 /\ p = KString "exports"
  /\ ordinary_get h (sandbox R) (KString "plugin") = VRef 0 l
  /\ h' = Reflect_set h l p v.
Proof.
  unfold set, is_sandbox_plugin.
  destruct n as [|n]; [|done].
  destruct (ordinary_get h (sandbox R) (KString "plugin"))
    as [| | | | |[|k] l']; try done.
  case_bool_decide as Hl; [subst l'|done]. simpl.
  case_bool_decide as Hp; [|done]. by intros [= <-].
Qed.

(** A write the [set] trap lets through is the write of [exports] on the
    object [sandbox.plugin] holds, and it changes nothing else: every
    other own property of every object, and what is callable and the
    prototype of every object, are as before. *)
Theorem set_changes_only_exports (h : Heap) (n : nat) (l : loc)
  (p : PropertyKey) (v : Value) (h' : Heap) :
  set R h n l p v = Normal h' ->
  n = 0 /\ p = KString "exports"
  /\ ordinary_get h (sandbox R) (KString "plugin") = VRef 0 l
  /\ (forall l0 q, (l0, q) <> (l, KString "exports") ->
        own_property h' l0 q = own_property h l0 q)
  /\ (forall l0, is_callable h' l0 = is_callable h l0)
  /\ (forall l0, proto <$> h' !! l0 = proto <$> h !! l0).
Proof.
  intros Hs. apply set_Normal_inv in Hs as (-> & -> & Hg & ->).
  repeat split; try done.
  - intros l0 q Hne. by apply own_property_Reflect_set.
  - intros l0. unfold is_callable, Reflect_set. rewrite lookup_alter.
    case_decide as Hl; [subst l0|done]. by destruct (h !! l).
  - intros l0. unfold Reflect_set. rewrite lookup_alter.
    case_decide as Hl; [subst l0|done]. by destruct (h !! l).
Qed.

(** The export can be written again and again, and the last write is
    what [runScript] reads: after a write of [exports] that went through,
    a second one goes through too and its value is the export. *)
Theorem exports_last_write_wins (h : Heap) (l : loc) (v1 v2 : Value) (h1 : Heap) :
  is_Some (h !! l) ->
  set R h 0 l (KString "exports") v1 = Normal h1 ->
  exists h2,
    set R h1 0 l (KString "exports") v2 = Normal h2
    /\ exports R h2 = v2.
Proof.
  intros Hl Hs. apply set_Normal_inv in Hs as (_ & _ & Hg & ->).
  assert (Hg1 : ordinary_get (Reflect_set h l (KString "exports") v1)
                  (sandbox R) (KString "plugin") = VRef 0 l).
  { unfold ordinary_get in *.
    by rewrite find_property_Reflect_set_ne by discriminate. }
  assert (Hl1 : is_Some (Reflect_set h l (KString "exports") v1 !! l)).
  { unfold Reflect_set. rewrite lookup_alter_eq. by apply fmap_is_Some. }
  exists (Reflect_set (Reflect_set h l (KString "exports") v1) l
            (KString "exports") v2).
  split.
  - unfold set, is_sandbox_plugin. rewrite Hg1.
    by rewrite !bool_decide_eq_true_2.
  - unfold exports, ordinary_get in *.
    rewrite find_property_Reflect_set_ne by discriminate.
    rewrite Hg1. by rewrite find_property_Reflect_set_eq.
Qed.

Lemma get_not_window h n l p :
  get R h n l p <> Normal (VRef 0 (window R)).
Proof.
  destruct n as [|n]; simpl; case_bool_decide; try done.
  - destruct (ordinary_has h l p); [|done].
    intros Hg. by apply get_found_not_window in Hg.
  - destruct (get R h n l p) as [val|e]; [|done].
    intros Hg. by apply get_found_not_window in Hg.
Qed.

Lemma get_found_Message h p val m :
  get_found R h p val = Throw (Message m) -> val = VRef 0 (window R).
Proof.
  unfold get_found, is_window. case_bool_decide as Hw; simpl; [done|].
  case_bool_decide; [|done]. by destruct val.
Qed.

Lemma get_Message_inv h n l p m :
  p <> Symbol_unscopables ->
  get R h n l p = Throw (Message m) ->
  find_property h l p = None
  \/ find_property h l p = Some (VRef 0 (window R)).
Proof.
  intros Hp. induction n as [|n IH]; simpl;
    rewrite bool_decide_eq_false_2 by done.
  - unfold ordinary_has, ordinary_get.
    destruct (find_property h l p) as [val|]; [|by left].
    rewrite bool_decide_eq_true_2 by eauto. simpl.
    intros Hg. apply get_found_Message in Hg. right. by rewrite Hg.
  - destruct (get R h n l p) as [val|e] eqn:Hg; [|by intros [= ->]; apply IH].
    intros Hf. apply get_found_Message in Hf. subst val.
    by apply get_not_window in Hg.
Qed.

(** The permission error of the [get] trap. For a key other than
    [Symbol.unscopables] and at every depth, the trap throws the message
    of the source with [String(p)] between the brackets when the key is
    found neither on the target nor along its prototype chain, and when
    the value found is the ambient global object; it throws a message in
    no other case. A bare identifier the [sandbox] literal does not have,
    nor [Object.prototype], is refused with its own name in the
    message. *)
Theorem get_denies (h : Heap) (n : nat) (l : loc) (p : PropertyKey) :
  p <> Symbol_unscopables ->
  (find_property h l p = None
   \/ find_property h l p = Some (VRef 0 (window R)) ->
   get R h n l p
   = Throw (Message ("Permission denied to access property or function ["
                       ++ String_of p ++ "]")))
  /\ (forall m,
        get R h n l p = Throw (Message m) ->
        find_property h l p = None
        \/ find_property h l p = Some (VRef 0 (window R)))
  /\ (forall x,
        p = KString x ->
        l = sandbox R ->
        find_property h l p = None ->
        read_identifier R h x
        = Throw (Message ("Permission denied to access property or function ["
                            ++ x ++ "]"))).
Proof.
  intros Hp. split; [|split].
  - intros [Hf|Hf]; [by apply get_absent | by apply get_window].
  - intros m. by apply get_Message_inv.
  - intros x -> -> Hf. unfold read_identifier. by rewrite get_absent.
Qed.

(** The [set] trap and the writes that go through it. A write on a proxy,
    at any depth and for any key, is refused with the message of the
    source, with [String(p)] between the brackets, unless the proxy is
    the one over the object [sandbox.plugin] holds and the key is
    [exports]. A write on a bare identifier is always refused, with the
    identifier in the message, when [sandbox.plugin] is not the [sandbox]
    itself. The write of [exports] on the proxy over [sandbox.plugin] is
    carried out, and its value is what [runScript] then reads as the
    export. *)
Theorem set_denies (h : Heap) (v : Value) :
  (forall n l p,
     ~ (n = 0 /\ p = KString "exports"
        /\ ordinary_get h (sandbox R) (KString "plugin") = VRef 0 l) ->
     set R h n l p v
     = Throw (Message ("Permission denied to set property or function ["
                         ++ String_of p ++ "]"))
     /\ write_member R h (VRef (S n) l) p v
        = Throw (Message ("Permission denied to set property or function ["
                            ++ String_of p ++ "]")))
  /\ (forall x,
        ordinary_get h (sandbox R) (KString "plugin") <> VRef 0 (sandbox R) ->
        write_identifier R h x v
        = Throw (Message ("Permission denied to set property or function ["
                            ++ x ++ "]")))
  /\ (forall l,
        ordinary_get h (sandbox R) (KString "plugin") = VRef 0 l ->
        is_Some (h !! l) ->
        write_member R h (VRef 1 l) (KString "exports") v
        = Normal (Reflect_set h l (KString "exports") v)
        /\ exports R (Reflect_set h l (KString "exports") v) = v).
Proof.
  assert (Hdeny : forall n l p,
            ~ (n = 0 /\ p = KString "exports"
               /\ ordinary_get h (sandbox R) (KString "plugin") = VRef 0 l) ->
            set R h n l p v = Throw (denied_set p)).
  { intros n l p Hno.
    destruct (set R h n l p v) as [h'|e] eqn:Hs.
    - apply set_Normal_inv in Hs as (-> & -> & Hg & _). by destruct Hno.
    - revert Hs. unfold set. by destruct (_ && _); intros [= <-]. }
  split; [|split].
  - intros n l p Hno. split; by apply Hdeny.
  - intros x Hx. unfold write_identifier. apply (Hdeny 0 (sandbox R)).
    by intros (_ & _ & Hg).
  - intros l Hg Hl.
    assert (Hs : set R h 0 l (KString "exports") v
                 = Normal (Reflect_set h l (KString "exports") v)).
    { unfold set, is_sandbox_plugin. rewrite Hg.
      by rewrite !bool_decide_eq_true_2. }
    split; [done|].
    unfold exports, ordinary_get in *.
    rewrite find_property_Reflect_set_ne by discriminate.
    rewrite Hg. by rewrite find_property_Reflect_set_eq.
Qed.

End HandlerMore.

Section HandlerMoreExamples.
Import Sandbox.

Lemma get_denies_witness :
  get realm initial_heap 0 l_sandbox (KString "fetch")
  = Throw (Message "Permission denied to access property or function [fetch]")
  /\ get realm initial_heap 2 l_window (KString "window")
     = Throw (Message
                "Permission denied to access property or function [window]")
  /\ read_identifier realm initial_heap "Function"
     = Throw (Message
                "Permission denied to access property or function [Function]").
Proof.
  pose proof (get_denies realm initial_heap 0 l_sandbox (KString "fetch")
                ltac:(discriminate)) as (H1 & _ & _).
  pose proof (get_denies realm initial_heap 2 l_window (KString "window")
                ltac:(discriminate)) as (H2 & _ & _).
  pose proof (get_denies realm initial_heap 0 l_sandbox (KString "Function")
                ltac:(discriminate)) as (_ & _ & H3).
  split; [|split].
  - apply H1. left. reflexivity.
  - apply H2. right. reflexivity.
  - apply (H3 (js "Function")); reflexivity.
Defined.

Lemma set_denies_witness :
  set realm initial_heap 0 l_plugin (KString "type") (VNumber 1)
  = Throw (Message "Permission denied to set property or function [type]")
  /\ write_member realm initial_heap (VRef 1 l_JSON) (KString "parse")
       (VNumber 1)
     = Throw (Message "Permission denied to set property or function [parse]")
  /\ write_identifier realm initial_heap "fetch" (VNumber 1)
     = Throw (Message "Permission denied to set property or function [fetch]")
  /\ write_member realm initial_heap (VRef 1 l_plugin) (KString "exports")
       (VNumber 1)
     = Normal (Reflect_set initial_heap l_plugin (KString "exports")
                 (VNumber 1))
  /\ exports realm
       (Reflect_set initial_heap l_plugin (KString "exports") (VNumber 1))
     = VNumber 1.
Proof.
  pose proof (set_denies realm initial_heap (VNumber 1))
    as (Hdeny & Hname & Hexports).
  destruct (Hdeny 0 l_plugin (KString "type")) as [H1 _].
  { intros (_ & Hp & _). discriminate. }
  destruct (Hdeny 0 l_JSON (KString "parse")) as [_ H2].
  { intros (_ & Hp & _). discriminate. }
  destruct (Hexports l_plugin) as [H4 H5].
  { reflexivity. }
  { vm_compute. eauto. }
  split; [exact H1|]. split; [exact H2|]. split; [|split].
  - apply Hname. vm_compute. discriminate.
  - exact H4.
  - exact H5.
Defined.

Lemma get_bare_or_TypeError_witness :
  get realm initial_heap 0 l_sandbox (KString "isNaN") = Normal (VRef 0 32)
  /\ get realm initial_heap 1 l_PluginType (KString "BOOK_STORE")
     = Normal (VNumber 1)
  /\ exists msg,
       get realm initial_heap 0 l_plugin (KString "exports")
       = Throw (TypeError msg).
Proof.
  pose proof (get_bare_or_TypeError realm initial_heap 0 l_sandbox
                (KString "isNaN") ltac:(discriminate)) as [H1 _].
  pose proof (get_bare_or_TypeError realm initial_heap 1 l_PluginType
                (KString "BOOK_STORE") ltac:(discriminate)) as [H2 _].
  pose proof (get_bare_or_TypeError realm initial_heap 0 l_plugin
                (KString "exports") ltac:(discriminate)) as [_ H3].
  split; [|split].
  - apply H1; [reflexivity | discriminate | vm_compute; discriminate].
  - apply H2; [reflexivity | discriminate | vm_compute; discriminate].
  - apply H3. reflexivity.
Defined.

Lemma set_changes_only_exports_witness :
  own_property
    (Reflect_set initial_heap l_plugin (KString "exports") (VNumber 7))
    l_plugin (KString "type")
  = own_property initial_heap l_plugin (KString "type")
  /\ own_property
       (Reflect_set initial_heap l_plugin (KString "exports") (VNumber 7))
       l_sandbox (KString "exports")
     = own_property initial_heap l_sandbox (KString "exports").
Proof.
  pose proof (set_changes_only_exports realm initial_heap 0 l_plugin
                (KString "exports") (VNumber 7)
                (Reflect_set initial_heap l_plugin (KString "exports") (VNumber 7))
                eq_refl) as (_ & _ & _ & Hown & _).
  split; apply Hown; discriminate.
Defined.

Lemma exports_last_write_wins_witness :
  exists h2,
    set realm (Reflect_set initial_heap l_plugin (KString "exports") (VNumber 7))
      0 l_plugin (KString "exports") (VRef 0 l_Date) = Normal h2
    /\ exports realm h2 = VRef 0 l_Date.
Proof.
  apply (exports_last_write_wins realm initial_heap l_plugin (VNumber 7)).
  - vm_compute. eauto.
  - reflexivity.
Defined.

End HandlerMoreExamples.

(** ** The request capability and the store manager *)

Section CapabilityMore.

(** The proxy policy of [request.get] and [request.post]. A call that
    asks for the proxy while the settings do not enable one, or have
    none, is refused and nothing is sent. A call that is sent goes to the
    address given, with the fields given, and carries a proxy exactly
    when the plugin asked for it and the settings enable it and have it;
    the proxy it carries is the one of the settings. *)
Theorem proxy_policy {RequestProxy Fields : Type} (m : Request.Method)
  (settings : Request.Settings RequestProxy) (url : JSString)
  (config : option (Request.PluginRequestConfig Fields)) :
  (default false (config ≫= Request.proxy) = true ->
   Request.enableProxy settings = false
   \/ Request.settings_proxy settings = None ->
   Request.send m settings url config = Err "Proxy not enabled")
  /\ (forall call,
        Request.send m settings url config = Ok call ->
        Request.call_method call = m
        /\ Request.call_url call = url
        /\ Request.out_fields (Request.call_config call)
           = Request.fields <$> config
        /\ forall px,
             Request.out_proxy (Request.call_config call) = Some px <->
             default false (config ≫= Request.proxy) = true
             /\ Request.enableProxy settings = true
             /\ Request.settings_proxy settings = Some px).
Proof.
  unfold Request.send. split.
  - intros -> [He|Hp]; simpl.
    + by rewrite He.
    + rewrite Hp. by destruct (Request.enableProxy settings).
  - intros call.
    destruct (default false (config ≫= Request.proxy)); simpl.
    + destruct (Request.enableProxy settings),
        (Request.settings_proxy settings) as [p|]; simpl; try done.
      intros [= <-]. simpl. do 3 (split; [done|]).
      intros px. split; [by intros [= ->] | by intros (_ & _ & [= ->])].
    + intros [= <-]. simpl. do 3 (split; [done|]).
      intros px. split; [done | by intros (? & _)].
Qed.

Lemma proxy_policy_witness :
  Request.get
    {| Request.enableProxy := false; Request.settings_proxy := Some (js "socks") |}
    "http://example.com"
    (Some {| Request.proxy := Some true; Request.fields := tt |})
  = Err "Proxy not enabled"
  /\ Request.out_proxy (Request.call_config
       {| Request.call_method := Request.POST;
          Request.call_url := "http://example.com";
          Request.call_config :=
            {| Request.out_fields := Some tt;
               Request.out_proxy := Some (js "socks") |} |}) = Some (js "socks")
  /\ Request.post
       {| Request.enableProxy := true; Request.settings_proxy := Some (js "socks") |}
       "http://example.com"
       (Some {| Request.proxy := Some true; Request.fields := tt |})
     = Ok {| Request.call_method := Request.POST;
             Request.call_url := "http://example.com";
             Request.call_config :=
               {| Request.out_fields := Some tt;
                  Request.out_proxy := Some (js "socks") |} |}.
Proof.
  pose proof (proxy_policy Request.GET
    {| Request.enableProxy := false; Request.settings_proxy := Some (js "socks") |}
    "http://example.com"
    (Some {| Request.proxy := Some true; Request.fields := tt |}))
    as [Hrefuse _].
  split; [|split].
  - apply Hrefuse; [reflexivity | left; reflexivity].
  - reflexivity.
  - reflexivity.
Defined.

Context {Store : Type} (storeCreateFunction : JSString -> N -> Store).

Lemma getPluginStore_sound id st :
  StoreManager.sound storeCreateFunction st ->
  StoreManager.sound storeCreateFunction
    (StoreManager.getPluginStore storeCreateFunction id st).2.
Proof.
  intros (Hc & Hnd & Hdom & Hmax). unfold StoreManager.getPluginStore.
  destruct (StoreManager.pluginsStore st !! id) as [s|] eqn:Hl; [done|].
  simpl. split; [|split; [|split]]; simpl.
  - intros id' s' Hs. apply lookup_insert_Some in Hs as [[<- <-]|[_ Hs]];
      [done | by apply Hc].
  - rewrite fmap_app. simpl. apply NoDup_app. split; [done|]. split.
    + intros x Hx Hx'. apply list_elem_of_singleton in Hx'. subst x.
      apply Hdom in Hx. rewrite Hl in Hx. by destruct Hx.
    + apply NoDup_singleton.
  - intros id'. rewrite fmap_app, elem_of_app. simpl.
    rewrite list_elem_of_singleton, lookup_insert_is_Some, Hdom.
    destruct (decide (id = id')) as [->|Hne]; intuition congruence.
  - intros x Hx. apply elem_of_app in Hx as [Hx|Hx]; [by apply Hmax|].
    apply list_elem_of_singleton in Hx. by subst.
Qed.

Lemma after_gets_sound ids st :
  StoreManager.sound storeCreateFunction st ->
  StoreManager.sound storeCreateFunction
    (StoreManager.after_gets storeCreateFunction ids st).
Proof.
  revert st. induction ids as [|id ids IH]; intros st Hst; [done|].
  simpl. apply IH. by apply getPluginStore_sound.
Qed.

Lemma after_gets_dom ids st id :
  is_Some (StoreManager.pluginsStore
             (StoreManager.after_gets storeCreateFunction ids st) !! id)
  <-> id ∈ ids \/ is_Some (StoreManager.pluginsStore st !! id).
Proof.
  revert st. induction ids as [|id' ids IH]; intros st; simpl.
  { rewrite elem_of_nil. tauto. }
  rewrite IH, elem_of_cons. unfold StoreManager.getPluginStore.
  destruct (StoreManager.pluginsStore st !! id') as [s|] eqn:Hl; simpl.
  - split; [tauto|].
    intros [[->|?]|?]; [right; rewrite Hl; eauto | auto | auto].
  - rewrite lookup_insert_is_Some.
    destruct (decide (id' = id)) as [->|Hne]; intuition congruence.
Qed.

(** [getPluginStore] keeps one store per plugin. Asking twice for the
    store of an id gives the same store, and the second call creates
    nothing and leaves the manager as it is. *)
Theorem getPluginStore_cached (id : JSString) (st : StoreManager.Stores) :
  StoreManager.getPluginStore storeCreateFunction id
    (StoreManager.getPluginStore storeCreateFunction id st).2
  = ((StoreManager.getPluginStore storeCreateFunction id st).1,
     (StoreManager.getPluginStore storeCreateFunction id st).2).
Proof.
  unfold StoreManager.getPluginStore.
  destruct (StoreManager.pluginsStore st !! id) as [s|] eqn:Hl; simpl.
  - by rewrite Hl.
  - by rewrite lookup_insert_eq.
Qed.

(** From an empty manager, whatever ids are asked for and however often:
    a store was created for exactly the ids asked for, once each, always
    with the budget of 4 MiB, and the store an id has is the one created
    for it. *)
Theorem stores_created_once (ids : list JSString) :
  let st := StoreManager.after_gets storeCreateFunction ids
              StoreManager.empty in
  NoDup (StoreManager.created st).*1
  /\ (forall id, id ∈ (StoreManager.created st).*1 <-> id ∈ ids)
  /\ (forall x, x ∈ StoreManager.created st -> x.2 = 4194304%N)
  /\ (forall id, id ∈ ids ->
        StoreManager.pluginsStore st !! id
        = Some (storeCreateFunction id 4194304%N)).
Proof.
  intros st.
  assert (Hs : StoreManager.sound storeCreateFunction st).
  { apply after_gets_sound. split; [|split; [|split]]; simpl.
    - intros id s Hs. by rewrite lookup_empty in Hs.
    - apply NoDup_nil_2.
    - intros id. rewrite elem_of_nil, lookup_empty. split; [done|].
      by intros [? ?].
    - intros x Hx. by apply elem_of_nil in Hx. }
  destruct Hs as (Hc & Hnd & Hdom & Hmax).
  assert (Hin : forall id, is_Some (StoreManager.pluginsStore st !! id)
                           <-> id ∈ ids).
  { intros id. unfold st. rewrite after_gets_dom. simpl.
    rewrite lookup_empty. split; [intros [?|[? ?]]; done | auto]. }
  split; [done|]. split; [|split].
  - intros id. by rewrite Hdom, Hin.
  - exact Hmax.
  - intros id Hid. apply Hin in Hid as [s Hs]. rewrite Hs.
    f_equal. by apply Hc.
Qed.

End CapabilityMore.

(** ** The registry, further *)

Section RegistryMore.
Import JS Schema Registry.
Context (H : Host).

(** Every way [import] can end: it throws and the registry, the database
    and the statistics are as before; or every stage passed, and the
    state is the one the stages built. *)
Lemma import_result path code options s r s' :
  import H path code options s = (r, s') ->
  (exists e,
     r = Err e
     /\ pluginsPool s' = pluginsPool s
     /\ pluginsJSCode s' = pluginsJSCode s
     /\ loadStats s' = loadStats s
     /\ constructed s <= constructed s')
  \/ (exists text text' plugin,
        r = Ok (constructed s)
        /\ resolve_source H path code = Ok text
        /\ rewritten H options text = Ok text'
        /\ exported H text' = Ok plugin
        /\ _isPlugin plugin = Ok tt
        /\ duplicate options s plugin = false
        /\ constructor_throws plugin = None
        /\ (opt Options.debug options = false ->
            put_rejects H (key (ID (statics plugin))) (persisted options text')
            = None)
        /\ pluginsPool s'
           = <[key (ID (statics plugin))
               := entry_of options plugin (constructed s)]> (pluginsPool s)
        /\ pluginsJSCode s'
           = (if opt Options.debug options then pluginsJSCode s
              else <[key (ID (statics plugin)) := persisted options text']>
                     (pluginsJSCode s))
        /\ executed s' = executed s ++ [text']
        /\ pluginsStore s' = {[key (ID (statics plugin))]} ∪ pluginsStore s
        /\ loadStats s' = loadStats s
        /\ constructed s' = S (constructed s)).
Proof.
  rewrite import_run.
  destruct (resolve_source H path code) as [text|e] eqn:Hr.
  2: { intros [= <- <-]. left. exists e. repeat split; done. }
  rewrite check_run.
  destruct (rewritten H options text) as [text'|e] eqn:Hw; simpl.
  2: { intros [= <- <-]. left. exists e. repeat split; done. }
  destruct (exported H text') as [plugin|e] eqn:He.
  2: { intros [= <- <-]. left. exists e. repeat split; done. }
  destruct (_isPlugin plugin) as [[]|e] eqn:Hv.
  2: { intros [= <- <-]. left. exists e. repeat split; done. }
  destruct (duplicate options s plugin) eqn:Hdup.
  { intros [= <- <-]. left. eexists. repeat split; done. }
  simpl. destruct (constructor_throws plugin) as [e|] eqn:Hnew.
  { intros [= <- <-]. left. exists e. repeat split; done. }
  destruct (opt Options.debug options) eqn:Hdebug.
  { intros [= <- <-]. right. exists text, text', plugin.
    simpl. repeat split; done. }
  destruct (put_rejects H _ _) as [e|] eqn:Hput.
  { intros [= <- <-]. left. exists e. simpl. repeat split; [done..|lia]. }
  intros [= <- <-]. right. exists text, text', plugin.
  simpl. repeat split; done.
Qed.


(** *** [disable] and [enable] *)

Lemma disable_run id s :
  disable H id s =
  match pluginsJSCode s !! id, pluginsPool s !! id with
  | Some record, Some entry =>
      match put_rejects H id {| jscode := jscode record; code_enable := false |} with
      | Some e => (Err e, s)
      | None =>
          (Ok tt,
           set_pluginsPool
             (insert id {| entry_enable := false; props := props entry;
                           instance := None |})
             (set_pluginsJSCode
                (insert id {| jscode := jscode record; code_enable := false |})
                s))
      end
  | _, _ => (Err (not_found id), s)
  end.
Proof.
  unfold disable. rewrite try_catch_run. unfold bind, gets. simpl.
  destruct (pluginsJSCode s !! id) as [record|]; [|done].
  destruct (pluginsPool s !! id) as [entry|]; [|done].
  unfold db_put. by destruct (put_rejects H id _).
Qed.

(** [disable]. Without a persisted record or without a registry entry
    for the id it throws the not-found error and changes nothing; when
    the [put] is rejected it throws that error and changes nothing.
    Otherwise the entry keeps its descriptor and loses its instance, the
    persisted record keeps its source with the flag [false], and every
    other entry and record is as before. *)
Theorem disable_drops_instance (id : JSString) (s : State) :
  (pluginsJSCode s !! id = None \/ pluginsPool s !! id = None ->
   disable H id s = (Err ("Cannot find plugin, id:" ++ id), s))
  /\ (forall record entry,
        pluginsJSCode s !! id = Some record ->
        pluginsPool s !! id = Some entry ->
        (forall e,
           put_rejects H id {| jscode := jscode record; code_enable := false |}
           = Some e ->
           disable H id s = (Err e, s))
        /\ (put_rejects H id {| jscode := jscode record; code_enable := false |}
            = None ->
            exists s',
              disable H id s = (Ok tt, s')
              /\ getPluginInstanceById id s' = Some None
              /\ getPluginPropsById id s' = Some (props entry)
              /\ pluginsJSCode s' !! id
                 = Some {| jscode := jscode record; code_enable := false |}
              /\ forall id', id' <> id ->
                   pluginsPool s' !! id' = pluginsPool s !! id'
                   /\ pluginsJSCode s' !! id' = pluginsJSCode s !! id')).
Proof.
  rewrite disable_run. split.
  - intros [Hn|Hn]; rewrite Hn; [done|].
    by destruct (pluginsJSCode s !! id).
  - intros record entry Hr He. rewrite Hr, He. split.
    + by intros e ->.
    + intros ->. eexists. split; [done|].
      unfold getPluginInstanceById, getPluginPropsById. simpl.
      rewrite !lookup_insert_eq. repeat split; try done.
      * by rewrite lookup_insert_ne.
      * by rewrite lookup_insert_ne.
Qed.

Lemma enable_run id s :
  enable H id s =
  match pluginsJSCode s !! id, pluginsPool s !! id with
  | Some record, Some _ =>
      match put_rejects H id {| jscode := jscode record; code_enable := true |} with
      | Some e => (Err e, s)
      | None =>
          match import H None (Some (jscode record)) enable_options
                  (set_pluginsJSCode
                     (insert id {| jscode := jscode record; code_enable := true |})
                     s) with
          | (Ok _, s2) => (Ok tt, s2)
          | (Err e, s2) => (Err e, s2)
          end
      end
  | _, _ => (Err (not_found id), s)
  end.
Proof.
  unfold enable. rewrite try_catch_run. unfold bind at 1 2, gets. simpl.
  destruct (pluginsJSCode s !! id) as [record|]; [|done].
  destruct (pluginsPool s !! id) as [entry|]; [|done].
  unfold bind at 1, db_put.
  destruct (put_rejects H id _); [done|]. simpl. unfold bind.
  by destruct (import H _ _ _ _) as [[i|e] s2].
Qed.


(** *** Every call is a sequence of writes of the registry *)

Lemma import_change path code options s :
  change s (snd (import H path code options s)).
Proof.
  destruct (import H path code options s) as [r s'] eqn:Hi. simpl.
  apply import_result in Hi as [(e & _ & Hp & _ & _ & Hn)|Hi].
  - by apply change_none.
  - destruct Hi as (text & text' & plugin & _ & _ & _ & _ & _ & _ & _ & _
                    & Hp & _ & _ & _ & _ & Hn).
    by apply (change_import s s' options plugin).
Qed.

Lemma disable_change id s : change s (snd (disable H id s)).
Proof.
  rewrite disable_run.
  destruct (pluginsJSCode s !! id) as [record|];
    [|by apply change_none].
  destruct (pluginsPool s !! id) as [entry|] eqn:He;
    [|by apply change_none].
  destruct (put_rejects H id _); [by apply change_none|].
  by apply (change_disable _ _ id entry).
Qed.

Lemma enable_changes id s : rtc change s (snd (enable H id s)).
Proof.
  rewrite enable_run.
  destruct (pluginsJSCode s !! id) as [record|];
    [|by apply rtc_once, change_none].
  destruct (pluginsPool s !! id) as [entry|];
    [|by apply rtc_once, change_none].
  destruct (put_rejects H id _); [by apply rtc_once, change_none|].
  match goal with
  | |- context [import H ?a ?b ?c ?s1] =>
      pose proof (import_change a b c s1) as Hc;
      destruct (import H a b c s1) as [[i|e] s2]
  end; simpl in *.
  - eapply rtc_l; [|by apply rtc_once]. by apply change_none.
  - eapply rtc_l; [|by apply rtc_once]. by apply change_none.
Qed.

Lemma delete_change id s : change s (snd (delete_method H id s)).
Proof.
  unfold delete_method, bind, db_remove_awaited, db_remove, modify, throw.
  destruct (remove_rejects H id); simpl.
  - by apply change_none.
  - by apply (change_delete _ _ id).
Qed.

Lemma load_record_changes r s : rtc change s (snd (load_record H r s)).
Proof.
  unfold load_record, importJSCode.
  match goal with
  | |- context [import H ?a ?b ?c s] =>
      pose proof (import_change a b c s) as Hc;
      destruct (import H a b c s) as [[i|e] s1]
  end; simpl in *.
  - eapply rtc_l; [done|]. by apply rtc_once, change_none.
  - eapply rtc_l; [done|]. by apply rtc_once, change_none.
Qed.

Lemma forEach_changes {A} (f : A -> M unit) l s :
  (forall a s, rtc change s (snd (f a s))) ->
  rtc change s (snd (forEach f l s)).
Proof.
  intros Hf. revert s. induction l as [|a l IH]; intros s; [done|].
  simpl. unfold bind. pose proof (Hf a s) as Ha.
  destruct (f a s) as [[[]|e] s1]; simpl in *; [|done].
  by etrans.
Qed.

Lemma importPool_changes s : rtc change s (snd (importPool H s)).
Proof.
  unfold importPool. rewrite try_catch_run. unfold bind, gets. simpl.
  apply forEach_changes. intros arr s1. apply forEach_changes.
  apply load_record_changes.
Qed.

Lemma after_changes c s : rtc change s (after H c s).
Proof.
  destruct c; simpl.
  - apply rtc_once, import_change.
  - apply enable_changes.
  - apply rtc_once, disable_change.
  - apply rtc_once, delete_change.
  - apply importPool_changes.
Qed.

(** *** What every registry the class builds satisfies *)

Lemma entry_wf_mono n n' e : n <= n' -> entry_wf n e -> entry_wf n' e.
Proof.
  intros Hn (H1 & H2). split; [done|].
  intros i Hi. specialize (H2 i Hi). lia.
Qed.

Lemma change_wf s s' : change s s' -> registry_wf s -> registry_wf s'.
Proof.
  intros Hc Hwf.
  destruct Hc as [Hp Hn|options plugin Hp Hn|id p Hl Hp Hn|id Hp Hn];
    intros id' e He; rewrite Hp in He.
  - by apply (entry_wf_mono (constructed s)), (Hwf id').
  - apply lookup_insert_Some in He as [[_ <-]|[_ He]].
    + unfold entry_of. split; simpl.
      * destruct (opt Options.enable options); split; done.
      * intros i Hi. destruct (opt Options.enable options); [|done].
        injection Hi as <-. lia.
    + apply (entry_wf_mono (constructed s)); [lia|]. by apply (Hwf id').
  - apply lookup_insert_Some in He as [[_ <-]|[_ He]].
    + split; simpl; [|done]. split; [done | by intros [? ?]].
    + rewrite Hn. by apply (Hwf id').
  - apply lookup_delete_Some in He as [_ He]. rewrite Hn. by apply (Hwf id').
Qed.

Lemma changes_wf s s' : rtc change s s' -> registry_wf s -> registry_wf s'.
Proof. induction 1; [done|]. intros Hs. eauto using change_wf. Qed.

Lemma reachable_wf s : reachable H s -> registry_wf s.
Proof.
  induction 1 as [db|c s _ IH].
  - intros id e He. simpl in He. by rewrite lookup_empty in He.
  - apply (changes_wf s); [apply after_changes | done].
Qed.

(** In every state the class can reach, an entry is enabled exactly when
    it holds an instance: there is no enabled entry without an instance
    and no instance in a disabled entry. *)
Theorem enabled_iff_instance (s : State) (id : JSString) (e : PoolEntry) :
  reachable H s ->
  pluginsPool s !! id = Some e ->
  entry_enable e = true <-> is_Some (instance e).
Proof.
  intros Hr He. apply reachable_wf in Hr.
  by apply Hr in He as (Hi & _).
Qed.

(** *** [getPluginsByType] *)

Lemma elem_of_getPluginsByType type filter s pr i :
  (pr, i) ∈ getPluginsByType type filter s <->
  exists id e,
    pluginsPool s !! id = Some e
    /\ props e = pr /\ instance e = Some i
    /\ strict_eqb (TYPE (props e)) (Num (Int (PluginType_code type))) = true
    /\ (truthy_field (filter_group (merge_filter filter)) = false
        \/ field_is_string (filter_group (merge_filter filter))
             (GROUP (props e)) = true)
    /\ field_is_bool (filter_enable (merge_filter filter)) (entry_enable e)
       = true.
Proof.
  unfold getPluginsByType. rewrite list_elem_of_omap. split.
  - intros (e & He & Hi). destruct (instance e) as [j|] eqn:Hj; [|done].
    injection Hi as <- <-.
    apply list_elem_of_In in He. apply List.filter_In in He as [He Hen].
    apply List.filter_In in He as [He Hty].
    apply list_elem_of_In in He.
    apply list_elem_of_fmap in He as ([id e'] & -> & He).
    apply elem_of_map_to_list in He. simpl in *.
    exists id, e'. repeat split; try done.
    + by destruct (strict_eqb _ _).
    + destruct (strict_eqb _ _); [|done]. simpl in Hty.
      destruct (truthy_field _); [|by left]. right.
      by destruct (field_is_string _ _).
  - intros (id & e & He & <- & Hi & Hty & Hg & Hen).
    exists e. rewrite Hi. split; [|done].
    apply list_elem_of_In, List.filter_In. split; [|done].
    apply List.filter_In. split.
    + apply list_elem_of_In, list_elem_of_fmap. exists (id, e).
      split; [done|]. by apply elem_of_map_to_list.
    + rewrite Hty. simpl. destruct Hg as [-> | ->]; [done|].
      by rewrite andb_false_r.
Qed.

(** In every state the class can reach, a query with the filter on
    enabled plugins (the default) lists every enabled entry of the type
    asked for, and of the group when one is asked for: the filter on the
    instance drops none of them. *)
Theorem enabled_plugins_listed (s : State) (type : PluginType)
  (filter : option PluginFilter) (id : JSString) (e : PoolEntry) :
  reachable H s ->
  filter_enable (merge_filter filter) = Given true ->
  pluginsPool s !! id = Some e ->
  entry_enable e = true ->
  TYPE (props e) = Num (Int (PluginType_code type)) ->
  truthy_field (filter_group (merge_filter filter)) = false
  \/ field_is_string (filter_group (merge_filter filter)) (GROUP (props e))
     = true ->
  exists i,
    instance e = Some i
    /\ (props e, i) ∈ getPluginsByType type filter s
    /\ i ∈ getPluginInstanceByType type filter s.
Proof.
  intros Hr Hf He Hen Hty Hg. apply reachable_wf in Hr as Hwf.
  pose proof (Hwf id e He) as (Hi & _).
  apply Hi in Hen as Hinst. destruct Hinst as [i Hinst]. exists i.
  assert (Hin : (props e, i) ∈ getPluginsByType type filter s).
  { apply elem_of_getPluginsByType. exists id, e.
    rewrite Hf, Hty, Hen. simpl. rewrite Z.eqb_refl. by repeat split. }
  split; [done|]. split; [done|].
  unfold getPluginInstanceByType. apply list_elem_of_fmap.
  by exists (props e, i).
Qed.

(** *** The bulk loader, further *)






Lemma load_record_executed r s :
  executed (snd (load_record H r s)) = executed s ++ [jscode (snd r)].
Proof.
  unfold load_record.
  change (Some {| Options.force := Some true; Options.minify := Some false;
                  Options.debug := None;
                  Options.enable := Some (code_enable (snd r)) |})
    with (pool_options (snd r)).
  rewrite import_pool_options. simpl.
  destruct (exported H (jscode (snd r))) as [plugin|e]; simpl; [|done].
  destruct (_isPlugin plugin) as [[]|e]; simpl; [|done].
  destruct (constructor_throws plugin); simpl; [done|].
  by destruct (put_rejects H _ _).
Qed.

Lemma forEach_load_records_executed l s :
  executed (snd (forEach (load_record H) l s))
  = executed s ++ ((fun x => jscode (snd x)) <$> l).
Proof.
  revert s. induction l as [|x l IH]; intros s; simpl.
  { by rewrite app_nil_r. }
  unfold bind. destruct (load_record_run H x s) as (s1 & Hrun & _).
  pose proof (load_record_executed x s) as Hx. rewrite Hrun in *.
  simpl in Hx. rewrite IH, Hx, <- app_assoc. done.
Qed.

(** The bulk load runs every persisted script, as it is stored, once:
    with a parallelism of at least 1 and in whatever order the imports
    settle, the scripts run during the load are the sources of the
    records of the database, each one once. The static pass runs on none
    of them. *)
Theorem importPool_runs_each_once (s : State) :
  1 <= threadsNumber H ->
  (forall arr, settle H arr ≡ₚ arr) ->
  exists ran,
    executed (snd (importPool H s)) = executed s ++ ran
    /\ ran ≡ₚ (fun x => jscode (snd x)) <$> map_to_list (pluginsJSCode s).
Proof.
  intros Hn Hsettle.
  unfold importPool. rewrite try_catch_run. unfold bind, gets. simpl.
  rewrite forEach_concat, forEach_load_records_executed.
  eexists. split; [done|].
  rewrite concat_settle by done. by rewrite concat_chunkArray.
Qed.

(** [delete]. When the [remove] of the database rejects, [delete] throws
    what it rejected with and nothing has changed: the entry stays in the
    registry. Otherwise [delete] returns; afterwards the id has no entry
    and no persisted record, every other entry and record is as before,
    and no query lists anything it did not list before. The cache of
    stores is not touched: the store of a deleted plugin stays cached. *)
Theorem delete_forgets (id : JSString) (s : State) :
  (forall e, remove_rejects H id = Some e ->
     delete_method H id s = (Err e, s))
  /\ (remove_rejects H id = None ->
      exists s',
        delete_method H id s = (Ok tt, s')
        /\ getPluginById id s' = None
        /\ getPluginInstanceById id s' = None
        /\ getPluginPropsById id s' = None
        /\ pluginsJSCode s' !! id = None
        /\ (forall id', id' <> id ->
              pluginsPool s' !! id' = pluginsPool s !! id'
              /\ pluginsJSCode s' !! id' = pluginsJSCode s !! id')
        /\ (forall type filter pr i,
              (pr, i) ∈ getPluginsByType type filter s' ->
              (pr, i) ∈ getPluginsByType type filter s)
        /\ pluginsStore s' = pluginsStore s).
Proof.
  unfold delete_method, bind, db_remove_awaited, db_remove, modify, throw.
  split; [by intros e ->|]. intros ->.
  eexists. split; [reflexivity|].
  unfold getPluginById, getPluginInstanceById, getPluginPropsById. simpl.
  rewrite !lookup_delete_eq. repeat split; try done.
  - by rewrite lookup_delete_ne.
  - by rewrite lookup_delete_ne.
  - intros type filter pr i Hin. apply elem_of_getPluginsByType in Hin
      as (id' & e & He & Hrest). simpl in He.
    apply lookup_delete_Some in He as [_ He].
    apply elem_of_getPluginsByType. by exists id', e.
Qed.

(** *** The static pass *)

Lemma walk_first n :
  match walk n with
  | Ok _ => Forall (fun m => is_import m = false) (nodes n)
  | Err e =>
      exists pre m post,
        nodes n = pre ++ m :: post
        /\ Forall (fun x => is_import x = false) pre
        /\ is_import m = true
        /\ e = import_error m
  end.
Proof.
  induction n as [name value line cs IH] using Node_induction.
  simpl. destruct (is_import (AST_Node name value line cs)) eqn:Hi.
  { exists [], (AST_Node name value line cs). eexists. by repeat split. }
  set (walk_all := fix walk_all (l : list Node) : Result unit :=
         match l with
         | [] => Ok tt
         | c :: r => walk c ;;; walk_all r
         end).
  set (nodes_all := fix nodes_all (l : list Node) : list Node :=
         match l with
         | [] => []
         | c :: r => nodes c ++ nodes_all r
         end).
  assert (Hl : match walk_all cs with
               | Ok _ => Forall (fun m => is_import m = false) (nodes_all cs)
               | Err e =>
                   exists pre m post,
                     nodes_all cs = pre ++ m :: post
                     /\ Forall (fun x => is_import x = false) pre
                     /\ is_import m = true
                     /\ e = import_error m
               end).
  { clear Hi. induction IH as [|c cs Hc _ IHcs]; simpl; [done|].
    destruct (walk c) as [[]|e]; simpl.
    - destruct (walk_all cs) as [[]|e].
      + by apply Forall_app.
      + destruct IHcs as (pre & m & post & -> & Hpre & Hm & ->).
        exists (nodes c ++ pre), m, post. rewrite <- app_assoc.
        repeat split; try done. by apply Forall_app.
    - destruct Hc as (pre & m & post & -> & Hpre & Hm & ->).
      exists pre, m, (post ++ nodes_all cs). rewrite <- app_assoc.
      by repeat split. }
  destruct (walk_all cs) as [[]|e].
  - by constructor.
  - destruct Hl as (pre & m & post & -> & Hpre & Hm & ->).
    exists (AST_Node name value line cs :: pre), m, post.
    repeat split; try done. by constructor.
Qed.

Lemma first_unique {A} (P : A -> bool) (pre pre' : list A) m m' post post' :
  pre ++ m :: post = pre' ++ m' :: post' ->
  Forall (fun x => P x = false) pre -> P m = true ->
  Forall (fun x => P x = false) pre' -> P m' = true ->
  m = m'.
Proof.
  revert pre'. induction pre as [|a pre IH]; intros [|a' pre'] Heq Hp Hm Hp' Hm';
    simpl in Heq; injection Heq as -> Heq.
  - done.
  - apply Forall_cons in Hp' as [Ha _]. congruence.
  - apply Forall_cons in Hp as [Ha _]. congruence.
  - apply Forall_cons in Hp as [_ Hp]. apply Forall_cons in Hp' as [_ Hp'].
    by apply (IH pre').
Qed.

(** The static pass on a script that parses. When no node of the tree
    passes the visitor's test, the pass returns the printed, rewritten
    text. Otherwise it throws, and the line in the message is that of the
    first such node in the order of the walk, parents before children,
    children from left to right. *)
Theorem static_check_first_import (text : JSString) (ast : Node) :
  parse H text = Ok ast ->
  (Forall (fun m => is_import m = false) (nodes ast) ->
   static_check H text = Ok (print H ast))
  /\ (forall pre m post,
        nodes ast = pre ++ m :: post ->
        Forall (fun x => is_import x = false) pre ->
        is_import m = true ->
        static_check H text
        = Err ("Cannot import modules, in the " ++ pretty (start_line m)
                 ++ " line")).
Proof.
  intros Hp. unfold static_check. rewrite Hp.
  pose proof (walk_first ast) as Hw. split.
  - intros Hall. destruct (walk ast) as [[]|e]; [done|].
    destruct Hw as (pre & m & post & Hn & _ & Hm & _).
    rewrite Hn in Hall. apply Forall_app in Hall as [_ Hall].
    apply Forall_cons in Hall as [Hm' _]. congruence.
  - intros pre m post Hn Hpre Hm. destruct (walk ast) as [[]|e].
    + rewrite Hn in Hw. apply Forall_app in Hw as [_ Hw].
      apply Forall_cons in Hw as [Hm' _]. congruence.
    + destruct Hw as (pre' & m' & post' & Hn' & Hpre' & Hm' & ->).
      rewrite Hn in Hn'.
      by rewrite (first_unique is_import pre pre' m m' post post' Hn').
Qed.

(** When the static pass runs, that is when no options are given or
    [options.minify] is truthy, a script whose tree has a node named
    [import] or starting with the token [import] is refused by [import],
    for a file and for a text alike, with the message that names the line
    of the first such node of the walk; and the state is untouched:
    nothing was run, registered or persisted. *)
Theorem import_construct_rejected (options : option PluginImportOptions)
  (s : State) (path code : option JSString) (text : JSString) (ast n : Node) :
  runs_static_check options = true ->
  resolve_source H path code = Ok text ->
  parse H text = Ok ast ->
  n ∈ nodes ast ->
  is_import n = true ->
  exists pre m post,
    nodes ast = pre ++ m :: post
    /\ Forall (fun x => is_import x = false) pre
    /\ is_import m = true
    /\ import H path code options s
       = (Err ("Cannot import modules, in the " ++ pretty (start_line m)
                 ++ " line"), s).
Proof.
  intros Hs Hr Hp Hn Hi.
  pose proof (walk_first ast) as Hw.
  destruct (walk ast) as [[]|e] eqn:Hwalk.
  { rewrite Forall_forall in Hw. rewrite (Hw n Hn) in Hi. discriminate. }
  destruct Hw as (pre & m & post & Hnodes & Hpre & Hm & ->).
  exists pre, m, post. do 3 (split; [done|]).
  rewrite import_run, Hr, check_run. unfold rewritten, static_check.
  by rewrite Hs, Hp, Hwalk.
Qed.

End RegistryMore.

(** ** The further properties at work *)

Section RegistryMoreExamples.
Import JS Schema Registry Examples Library.


Lemma disable_drops_instance_witness :
  disable host "unknownunknownunknown" registered_state
  = (Err "Cannot find plugin, id:unknownunknownunknown", registered_state)
  /\ exists s',
       disable host demo_id registered_state = (Ok tt, s')
       /\ getPluginInstanceById demo_id s' = Some None
       /\ getPluginPropsById demo_id s' = Some (statics demo_plugin)
       /\ pluginsJSCode s' !! demo_id
          = Some {| jscode := demo_script; code_enable := false |}.
Proof.
  pose proof (disable_drops_instance host "unknownunknownunknown"
                registered_state) as [Hmissing _].
  pose proof (disable_drops_instance host demo_id registered_state)
    as [_ Hfound].
  split.
  - apply Hmissing. left. reflexivity.
  - destruct (Hfound {| jscode := demo_script; code_enable := true |}
                (entry_of enabling demo_plugin 0) eq_refl eq_refl)
      as [_ Hok].
    destruct (Hok eq_refl) as (s' & Hrun & Hi & Hp & Hd & _).
    exists s'. repeat split; assumption.
Defined.


Lemma enabled_iff_instance_witness :
  entry_enable {| entry_enable := false; props := statics demo_plugin;
                  instance := None |} = true
  <-> is_Some (instance {| entry_enable := false;
                           props := statics demo_plugin;
                           instance := None |}).
Proof.
  apply (enabled_iff_instance host disabled_state demo_id).
  - apply reachable_after, reachable_after, reachable_start.
  - reflexivity.
Defined.

Lemma enabled_plugins_listed_witness :
  exists i,
    instance (entry_of enabling second_plugin 1) = Some i
    /\ (props (entry_of enabling second_plugin 1), i)
       ∈ getPluginsByType BOOK_SOURCE None library_state
    /\ i ∈ getPluginInstanceByType BOOK_SOURCE None library_state.
Proof.
  apply (enabled_plugins_listed library_host library_state BOOK_SOURCE None
           second_id (entry_of enabling second_plugin 1)).
  - apply reachable_after, reachable_after, reachable_start.
  - reflexivity.
  - reflexivity.
  - reflexivity.
  - reflexivity.
  - left. reflexivity.
Defined.


Lemma importPool_runs_each_once_witness :
  exists ran,
    executed (snd (importPool host mixed_state))
    = executed mixed_state ++ ran
    /\ ran ≡ₚ (fun x => jscode (snd x))
                <$> map_to_list (pluginsJSCode mixed_state).
Proof.
  apply (importPool_runs_each_once host mixed_state).
  - simpl. lia.
  - intros arr. reflexivity.
Defined.

Lemma static_check_first_import_witness :
  static_check library_host nested_script
  = Err "Cannot import modules, in the 3 line"
  /\ static_check library_host second_script = Ok second_script.
Proof.
  pose proof (static_check_first_import library_host nested_script nested_ast
                eq_refl) as [_ Hfirst].
  pose proof (static_check_first_import library_host second_script second_ast
                eq_refl) as [Hnone _].
  split.
  - apply (Hfirst
             [nested_ast;
              AST_Node (Some (js "f")) (Some (js "function")) 1
                [AST_Node (Some (js "x")) (Some (js "var")) 2 [];
                 AST_Node None (Some (js "import")) 3
                   [AST_Node None (Some (js "a")) 3 []]];
              AST_Node (Some (js "x")) (Some (js "var")) 2 []]
             (AST_Node None (Some (js "import")) 3 [AST_Node None (Some (js "a")) 3 []])
             [AST_Node None (Some (js "a")) 3 [];
              AST_Node None (Some (js "import")) 5 [AST_Node None (Some (js "b")) 5 []];
              AST_Node None (Some (js "b")) 5 []]).
    + reflexivity.
    + repeat constructor.
    + reflexivity.
  - apply Hnone. repeat constructor.
Defined.

Lemma delete_forgets_witness :
  delete_method host_without_remove demo_id registered_state
  = (Err "InvalidStateError", registered_state)
  /\ is_Some (pluginsPool registered_state !! demo_id)
  /\ exists s',
       delete_method host demo_id registered_state = (Ok tt, s')
       /\ getPluginById demo_id s' = None
       /\ pluginsJSCode s' !! demo_id = None.
Proof.
  pose proof (delete_forgets host_without_remove demo_id registered_state)
    as [Hrejected _].
  pose proof (delete_forgets host demo_id registered_state) as [_ Haccepted].
  split; [apply Hrejected; reflexivity|].
  split; [vm_compute; eauto|].
  destruct (Haccepted eq_refl) as (s' & Hrun & Hget & _ & _ & Hdb & _).
  exists s'. split; [exact Hrun|]. split; [exact Hget | exact Hdb].
Defined.

Lemma import_construct_rejected_witness :
  (exists pre m post,
     nodes nested_ast = pre ++ m :: post
     /\ Forall (fun x => is_import x = false) pre
     /\ is_import m = true
     /\ importPluginFile library_host nested_path None initial
        = (Err ("Cannot import modules, in the " ++ pretty (start_line m)
                  ++ " line"), initial))
  /\ importPluginFile library_host nested_path None initial
     = (Err "Cannot import modules, in the 3 line", initial)
  /\ importJSCode host importing_script enabling initial
     = (Err "Cannot import modules, in the 1 line", initial).
Proof.
  split; [|split; reflexivity].
  apply (import_construct_rejected library_host None initial
           (Some nested_path) None nested_script nested_ast
           (AST_Node None (Some (js "import")) 5
              [AST_Node None (Some (js "b")) 5 []])).
  - reflexivity.
  - reflexivity.
  - reflexivity.
  - vm_compute. do 5 apply list_elem_of_further. apply list_elem_of_here.
  - reflexivity.
Defined.

End RegistryMoreExamples.
